(** * binance-api: a shallow embedding of [main.py]

    The program queries the exchange's REST gateway, ranks symbols by a
    ticker field, sums order-book notional values, computes bid/ask
    spreads and, in a polling loop, the absolute spread delta between two
    successive polls.  Gateway responses are the inputs of the model;
    Python exceptions are the [Raise] branch of [result]. *)

From Stdlib Require Import ZArith NArith String Ascii.
From stdpp Require Import base list strings gmap sorting.

Open Scope Z_scope.

(** ** Exceptions and the error monad *)

Inductive exn : Type :=
| KeyError
| IndexError
| TypeError
| InvalidOperation
| Overflow
| OverflowError
| JSONDecodeError.

Inductive result (A : Type) : Type :=
| Ok (a : A)
| Raise (e : exn).
Arguments Ok {A} a.
Arguments Raise {A} e.

#[global] Instance result_ret : MRet result := fun A a => Ok a.
#[global] Instance result_bind : MBind result := fun A B f m =>
  match m with
  | Ok a => f a
  | Raise e => Raise e
  end.
#[global] Instance result_fmap : FMap result := fun A B f m =>
  match m with
  | Ok a => Ok (f a)
  | Raise e => Raise e
  end.

Definition raises {A} (m : result A) : Prop := exists e, m = Raise e.

(** [for x in l: ...] collecting one value per element, left to right; the
    first exception ends the loop. *)
Fixpoint mapR {A B} (f : A -> result B) (l : list A) : result (list B) :=
  match l with
  | [] => Ok []
  | x :: l' => y ← f x; ys ← mapR f l'; Ok (y :: ys)
  end.

(** [list(filter(p, l))] for a predicate that can raise. *)
Fixpoint filterR {A} (p : A -> result bool) (l : list A) : result (list A) :=
  match l with
  | [] => Ok []
  | x :: l' => b ← p x; ys ← filterR p l'; Ok (if b : bool then x :: ys else ys)
  end.

(** The elements [filterR] keeps. *)
Definition is_true (m : result bool) : bool :=
  match m with Ok true => true | _ => false end.

(** ** Python's [decimal.Decimal], finite numbers, default context

    A finite Decimal is a sign, a coefficient and an exponent, its value
    [(-1)^sign * coef * 10^exp].  Every arithmetic operation computes the
    exact result and then rounds it to the context ([fix]): precision 28,
    ROUND_HALF_EVEN, Emax 999999, Emin -999999, Overflow trapped.  The
    constructor from a string and the comparisons do not round. *)

Module Dec.

Record decimal : Type := mk { sign : bool; coef : N; exp : Z }.

#[global] Instance decimal_eq_dec : EqDecision decimal.
Proof. solve_decision. Defined.

Definition prec : Z := 28.
Definition Emax : Z := 999999.
Definition Emin : Z := -999999.
Definition Etiny : Z := Emin - prec + 1.
Definition Etop : Z := Emax - prec + 1.

Fixpoint ndigits_aux (fuel : nat) (n : N) : Z :=
  match fuel with
  | O => 1
  | S fuel' => if (n <? 10)%N then 1 else 1 + ndigits_aux fuel' (n / 10)%N
  end.

(** [len(self._int)]: the number of decimal digits, 1 for zero. *)
Definition ndigits (n : N) : Z := ndigits_aux (N.to_nat (N.size n)) n.

Definition pow10 (k : Z) : N := (10 ^ Z.to_N k)%N.

(** ROUND_HALF_EVEN of [c / 10^k]. *)
Definition round_half_even (c : N) (k : Z) : N :=
  let p := pow10 k in
  let q := (c / p)%N in
  let r := (c mod p)%N in
  if ((p <? 2 * r) || ((2 * r =? p) && N.odd q))%N then (q + 1)%N else q.

(** [Decimal._fix]. *)
Definition fix_ (d : decimal) : result decimal :=
  if (coef d =? 0)%N then
    Ok (mk (sign d) 0 (Z.min (Z.max (exp d) Etiny) Emax))
  else
    let exp_min := ndigits (coef d) + exp d - prec in
    if Etop <? exp_min then Raise Overflow
    else
      let exp_min := Z.max exp_min Etiny in
      if exp d <? exp_min then
        let c := round_half_even (coef d) (exp_min - exp d) in
        let '(c, exp_min) :=
          if prec <? ndigits c then ((c / 10)%N, exp_min + 1) else (c, exp_min) in
        if Etop <? exp_min then Raise Overflow
        else Ok (mk (sign d) c exp_min)
      else Ok d.

(** The signed coefficient of [d] at exponent [e], for [e <= exp d]. *)
Definition scaled (e : Z) (d : decimal) : Z :=
  let m := Z.of_N (coef d * pow10 (exp d - e)) in
  if sign d then - m else m.

(** The exact sum: exponent [min], coefficients aligned; a zero sum of
    two operands is negative only when both are. *)
Definition exact_add (a b : decimal) : decimal :=
  let e := Z.min (exp a) (exp b) in
  let s := scaled e a + scaled e b in
  if s =? 0 then mk (sign a && sign b) 0 e
  else mk (s <? 0) (Z.abs_N s) e.

Definition exact_mul (a b : decimal) : decimal :=
  mk (xorb (sign a) (sign b)) (coef a * coef b) (exp a + exp b).

Definition copy_negate (d : decimal) : decimal :=
  mk (negb (sign d)) (coef d) (exp d).

Definition copy_abs (d : decimal) : decimal := mk false (coef d) (exp d).

Definition exact_sub (a b : decimal) : decimal := exact_add a (copy_negate b).

(** [a + b], [a - b], [a * b] and [abs(a)] of the class. *)
Definition add (a b : decimal) : result decimal := fix_ (exact_add a b).
Definition sub (a b : decimal) : result decimal := fix_ (exact_sub a b).
Definition mul (a b : decimal) : result decimal := fix_ (exact_mul a b).
Definition abs (a : decimal) : result decimal := fix_ (copy_abs a).

(** Numerical comparison (no rounding, signed zeros are equal). *)
Definition cmp (a b : decimal) : comparison :=
  let e := Z.min (exp a) (exp b) in
  scaled e a ?= scaled e b.

Definition ltb (a b : decimal) : bool :=
  match cmp a b with Lt => true | _ => false end.

Definition numeq (a b : decimal) : bool :=
  match cmp a b with Eq => true | _ => false end.

(** [d] is unchanged by the context: at most [prec] digits and an exponent
    within the limits. *)
Definition fits (d : decimal) : Prop :=
  ndigits (coef d) <= prec /\ Etiny <= exp d <= Etop.

(** *** Strings: the constructor and the ['f'] format *)

Definition is_digit (c : ascii) : bool :=
  let n := N_of_ascii c in ((48 <=? n) && (n <=? 57))%N.

Definition is_space (c : ascii) : bool :=
  let n := N_of_ascii c in
  (((9 <=? n) && (n <=? 13)) || ((28 <=? n) && (n <=? 32)))%N.

Definition digit_val (c : ascii) : N := (N_of_ascii c - 48)%N.

(** [int(s)] for a string of digits ([0] for the empty one). *)
Definition int_of_digits (cs : list ascii) : N :=
  fold_left (fun acc c => (acc * 10 + digit_val c)%N) cs 0%N.

Fixpoint span_digits (cs : list ascii) : list ascii * list ascii :=
  match cs with
  | c :: cs' =>
      if is_digit c then let '(ds, r) := span_digits cs' in (c :: ds, r)
      else ([], cs)
  | [] => ([], [])
  end.

Fixpoint lstrip (cs : list ascii) : list ascii :=
  match cs with
  | c :: cs' => if is_space c then lstrip cs' else cs
  | [] => []
  end.

(** [s.strip()]. *)
Definition strip (cs : list ascii) : list ascii :=
  rev (lstrip (rev (lstrip cs))).

Definition is_underscore (c : ascii) : bool := (N_of_ascii c =? 95)%N.

Definition split_sign (cs : list ascii) : bool * list ascii :=
  match cs with
  | c :: r =>
      if (N_of_ascii c =? 45)%N then (true, r)
      else if (N_of_ascii c =? 43)%N then (false, r)
      else (false, cs)
  | [] => (false, [])
  end.

(** The exponent part [(E[-+]?\d+)?] followed by the end of the string. *)
Definition parse_exponent (cs : list ascii) : option Z :=
  match cs with
  | [] => Some 0
  | c :: r =>
      if ((N_of_ascii c =? 69) || (N_of_ascii c =? 101))%N then
        let '(neg, r) := split_sign r in
        match span_digits r with
        | ((_ :: _) as ds, []) =>
            let v := Z.of_N (int_of_digits ds) in
            Some (if neg : bool then - v else v)
        | _ => None
        end
      else None
  end.

(** [Decimal(s)] for a string [s]: surrounding whitespace is stripped,
    underscores are removed, then
    [[-+]? (digits [. digits*]? | . digits) (E [-+]? digits)?] is read
    without rounding.  The spellings of the special values (Infinity, NaN)
    are not finite numbers and have no [Ok] result here; everything proved
    below about a parsed value assumes an [Ok] result. *)
Definition Decimal (s : string) : result decimal :=
  let cs := List.filter (fun c => negb (is_underscore c))
              (strip (list_ascii_of_string s)) in
  let '(sg, cs) := split_sign cs in
  let '(ip, r1) := span_digits cs in
  let '(fp, r2) :=
    match r1 with
    | c :: r => if (N_of_ascii c =? 46)%N then span_digits r else ([], r1)
    | [] => ([], [])
    end in
  match ip, fp with
  | [], [] => Raise InvalidOperation
  | _, _ =>
      match parse_exponent r2 with
      | Some e => Ok (mk sg (int_of_digits (ip ++ fp)) (e - Z.of_nat (length fp)))
      | None => Raise InvalidOperation
      end
  end.

Fixpoint digits_aux (fuel : nat) (n : N) (acc : list ascii) : list ascii :=
  match fuel with
  | O => acc
  | S fuel' =>
      let acc := ascii_of_N (48 + n mod 10) :: acc in
      if (n <? 10)%N then acc else digits_aux fuel' (n / 10)%N acc
  end.

(** [str(n)] for a natural number: [self._int]. *)
Definition digits_of_N (n : N) : list ascii :=
  digits_aux (S (N.to_nat (N.size n))) n [].

Definition zeros (k : Z) : list ascii := replicate (Z.to_nat k) "0"%char.

(** The digits before and after the point of [format(d, 'f')]. *)
Definition format_parts (d : decimal) : list ascii * list ascii :=
  let d := if ((coef d =? 0)%N && (0 <? exp d)) then mk (sign d) 0 0 else d in
  let ds := digits_of_N (coef d) in
  let len := Z.of_nat (length ds) in
  let dotplace := exp d + len in
  if dotplace <? 0 then (["0"%char], zeros (- dotplace) ++ ds)
  else if len <? dotplace then (ds ++ zeros (dotplace - len), [])
  else
    let i := take (Z.to_nat dotplace) ds in
    (match i with [] => ["0"%char] | _ => i end, drop (Z.to_nat dotplace) ds).

(** [format(d, 'f')] without a precision: every digit of the coefficient,
    the point placed by the exponent, never an exponent part. *)
Definition format_f (d : decimal) : string :=
  let '(intpart, fracpart) := format_parts d in
  string_of_list_ascii
    ((if sign d then ["-"%char] else []) ++ intpart ++
     match fracpart with [] => [] | _ => "."%char :: fracpart end).

End Dec.

Import Dec.

(** ** Python values and built-ins used by the program *)

(** The numbers the program handles: [Decimal]s and the [int] that
    [sum] starts from. *)
Inductive pynum : Type :=
| PyInt (z : Z)
| PyDecimal (d : decimal).

#[global] Instance pynum_eq_dec : EqDecision pynum.
Proof. solve_decision. Defined.

(** [Decimal(z)] for an [int]: exact. *)
Definition to_dec (v : pynum) : decimal :=
  match v with
  | PyInt z => mk (z <? 0) (Z.abs_N z) 0
  | PyDecimal d => d
  end.

Definition py_add (a b : pynum) : result pynum :=
  match a, b with
  | PyInt x, PyInt y => Ok (PyInt (x + y))
  | _, _ => PyDecimal <$> Dec.add (to_dec a) (to_dec b)
  end.

Definition py_sub (a b : pynum) : result pynum :=
  match a, b with
  | PyInt x, PyInt y => Ok (PyInt (x - y))
  | _, _ => PyDecimal <$> Dec.sub (to_dec a) (to_dec b)
  end.

Definition py_mul (a b : pynum) : result pynum :=
  match a, b with
  | PyInt x, PyInt y => Ok (PyInt (x * y))
  | _, _ => PyDecimal <$> Dec.mul (to_dec a) (to_dec b)
  end.

Definition py_abs (a : pynum) : result pynum :=
  match a with
  | PyInt x => Ok (PyInt (Z.abs x))
  | PyDecimal d => PyDecimal <$> Dec.abs d
  end.

(** [a < b]: numbers of both kinds compare by value. *)
Definition py_ltb (a b : pynum) : bool := Dec.ltb (to_dec a) (to_dec b).

Definition py_numeq (a b : pynum) : bool := Dec.numeq (to_dec a) (to_dec b).

(** [float(z)] for an [int]: the nearest double, which has 53 significant
    bits, ties to even; the result is an integer again.  A number that
    rounds beyond the largest double raises OverflowError. *)
Definition float_of_int (z : Z) : result Z :=
  let n := Z.abs z in
  let shift := Z.log2 n + 1 - 53 in
  if shift <=? 0 then Ok z
  else
    let q := Z.shiftr n shift in
    let r := Z.land n (Z.ones shift) in
    let half := Z.shiftl 1 (shift - 1) in
    let q := if (half <? r) || ((r =? half) && Z.odd q) then q + 1 else q in
    let m := Z.shiftl q shift in
    if 2 ^ 1024 <=? m then Raise OverflowError
    else Ok (if z <? 0 then - m else m).

(** [format(v, 'f')]: a Decimal shows the digits it has; an [int] is
    converted to [float] and shown with six decimals. *)
Definition py_format_f (v : pynum) : result string :=
  match v with
  | PyInt z =>
      x ← float_of_int z;
      Ok (string_of_list_ascii
            ((if x <? 0 then ["-"%char] else []) ++ digits_of_N (Z.abs_N x)) +:+ ".000000")
  | PyDecimal d => Ok (format_f d)
  end.

(** A JSON object whose fields hold strings, as every symbol, price and
    quantity of the gateway does. *)
Abbreviation dict := (gmap string string).

(** [d[k]]. *)
Definition getitem (d : dict) (k : string) : result string :=
  match d !! k with
  | Some v => Ok v
  | None => Raise KeyError
  end.

(** [l[i]] for [i >= 0]. *)
Definition list_getitem {A} (l : list A) (i : nat) : result A :=
  match l !! i with
  | Some v => Ok v
  | None => Raise IndexError
  end.

(** [x in l]. *)
Definition contains (l : list string) (x : string) : bool := bool_decide (x ∈ l).

(** [l[:n]]: a negative bound counts from the end. *)
Definition slice_to {A} (n : Z) (l : list A) : list A :=
  if n <? 0 then take (Z.to_nat (Z.of_nat (length l) + n)) l
  else take (Z.to_nat n) l.

(** [sorted(l, key=key, reverse=reverse)].  The sort is stable and only
    asks [<] of the keys; with [reverse] the list is reversed, sorted and
    reversed again, which keeps equal keys in their original order. *)
Section Sorted.
Context {A K : Type} (lt : K -> K -> bool) (key : A -> K).

Fixpoint insert_sorted (x : A) (l : list A) : list A :=
  match l with
  | [] => [x]
  | y :: l' =>
      if lt (key y) (key x) then y :: insert_sorted x l' else x :: l
  end.

Fixpoint stable_sort (l : list A) : list A :=
  match l with
  | [] => []
  | x :: l' => insert_sorted x (stable_sort l')
  end.

Definition sorted (reverse : bool) (l : list A) : list A :=
  if reverse then rev (stable_sort (rev l)) else stable_sort l.

(** [x] may stand before [y] in ascending, resp. descending key order. *)
Definition ascending (x y : A) : Prop := lt (key y) (key x) = false.
Definition descending (x y : A) : Prop := lt (key x) (key y) = false.

(** The elements whose key is neither below nor above [k]. *)
Definition tied (k : K) (x : A) : bool :=
  negb (lt k (key x)) && negb (lt (key x) k).
End Sorted.

(** [s.ljust(w)], the effect of the format spec [" <w"]. *)
Definition ljust (w : nat) (s : string) : string :=
  s +:+ string_of_list_ascii (replicate (w - String.length s) " "%char).

(** ** The program *)

(** An entry of a ["data"] list: the dictionaries the functions build,
    with the keys ["type"] and ["delta"] present or not. *)
Record row : Type := mkrow {
  symbol : string;
  value : pynum;
  type : option string;
  delta : option pynum
}.

#[global] Instance row_eq_dec : EqDecision row.
Proof. solve_decision. Defined.

(** *** [safe_request] *)

(** What [REQUEST_SESSION.get] hands back: the status code and what
    [response.json()] gives, the parsed body or its decoding error. *)
Record response (J : Type) : Type := mkresponse {
  status_code : Z;
  json : result J
}.
Arguments mkresponse {J} _ _.
Arguments status_code {J} _.
Arguments json {J} _.

(** [response.raise_for_status()] raises for the client and server error
    classes only. *)
Definition raise_for_status {J} (r : response J) : bool :=
  ((400 <=? status_code r) && (status_code r <? 500)) ||
  ((500 <=? status_code r) && (status_code r <? 600)).

(** [get] is the outcome of the HTTP exchange: a response, or the
    exception of the transport.  The handler raises a string, which
    Python turns into a [TypeError]. *)
Definition safe_request {J} (get : result (response J)) : result J :=
  r ← get;
  if raise_for_status r then Raise TypeError else json r.

(** *** Ranking *)

(** [exchange_symbols] is [get_exchange_info()["symbols"]]. *)
Definition get_symbols_by_quote_asset (exchange_symbols : list dict)
    (quote_asset : string) : result (list dict) :=
  filterR (fun x => q ← getitem x "quoteAsset"; Ok (bool_decide (q = quote_asset)))
    exchange_symbols.

Definition Decimal_cast (s : string) : result pynum := PyDecimal <$> Decimal s.

(** The body of the loop over the tickers: what it appends, nothing
    after [continue]. *)
Definition ticker_entry (symbols_names : list string) (top_by : string)
    (cast_top_by_to : string -> result pynum) (ticker : dict) : result (list row) :=
  s ← getitem ticker "symbol";
  if negb (contains symbols_names s) then Ok []
  else
    s ← getitem ticker "symbol";
    f ← getitem ticker top_by;
    v ← cast_top_by_to f;
    Ok [mkrow s v None None].

Definition get_top_symbols_by_quote_asset_by
    (exchange_symbols tickers : list dict) (quote_asset : string)
    (top : Z) (top_by : string) (cast_top_by_to : string -> result pynum)
    (sort_order_reverse : bool) : result (list row) :=
  syms ← get_symbols_by_quote_asset exchange_symbols quote_asset;
  symbols_names ← mapR (fun x => getitem x "symbol") syms;
  symbols_with_top_by_value ←
    mapR (ticker_entry symbols_names top_by cast_top_by_to) tickers;
  Ok (slice_to top
        (sorted py_ltb value sort_order_reverse (concat symbols_with_top_by_value))).

(** The exchange symbols whose quote asset is [quote_asset], and their
    names. *)
Definition quoted (quote_asset : string) (x : dict) : bool :=
  bool_decide (x !! "quoteAsset" = Some quote_asset).

Definition quote_symbols (exchange_symbols : list dict) (quote_asset : string)
    : list string :=
  omap (fun x : dict => x !! "symbol") (List.filter (quoted quote_asset) exchange_symbols).

(** The tickers whose symbol is one of [names]. *)
Definition matching (names : list string) (t : dict) : bool :=
  match t !! "symbol" with
  | Some s => contains names s
  | None => false
  end.

(** The entry [r] built for a ticker [t]: its symbol and its field
    [top_by] cast to a number. *)
Definition ranked (top_by : string) (cast_top_by_to : string -> result pynum)
    (t : dict) (r : row) : Prop :=
  exists f, t !! "symbol" = Some (symbol r) /\ t !! top_by = Some f /\
            cast_top_by_to f = Ok (value r) /\ type r = None /\ delta r = None.

Definition get_top_symbols_by_volume_in_24h
    (exchange_symbols tickers : list dict) (quote_asset : string) : result (list row) :=
  get_top_symbols_by_quote_asset_by exchange_symbols tickers quote_asset
    5 "volume" Decimal_cast true.

(** *** Notional value *)

(** An order-book response: each side a list of [price, quantity] pairs. *)
Record order_book : Type := mkbook {
  asks : list (string * string);
  bids : list (string * string)
}.

Definition cast_orders_tuple_to_decimal (x : string * string) : result (decimal * decimal) :=
  p ← Decimal x.1; q ← Decimal x.2; Ok (p, q).

Definition sort_orders_by_price (x : list (decimal * decimal)) : list (decimal * decimal) :=
  slice_to 200 (sorted Dec.ltb fst true x).

(** [sum([x[0] * x[1] for x in order])]: the products first, then the sum
    from the [int] 0. *)
Definition count_notional_value (order : list (decimal * decimal)) : result pynum :=
  products ← mapR (fun x => Dec.mul x.1 x.2) order;
  foldl (fun acc p => a ← acc; py_add a (PyDecimal p)) (Ok (PyInt 0)) products.




(** The body of the loop for one symbol.  Both sides are read from
    ["asks"], and the bids are sorted from the already sorted asks, as the
    source has it. *)
Definition notional_value_of (symbol : string) (ob : order_book) : result (list row) :=
  asks0 ← mapR cast_orders_tuple_to_decimal (asks ob);
  bids0 ← mapR cast_orders_tuple_to_decimal (asks ob);
  let asks1 := sort_orders_by_price asks0 in
  let bids1 := sort_orders_by_price asks1 in
  vb ← count_notional_value bids1;
  va ← count_notional_value asks1;
  Ok [mkrow symbol vb (Some "bid") None; mkrow symbol va (Some "ask") None].

Definition get_top_total_notional_value_by_symbols
    (get_order_book : string -> result order_book)
    (symbols : list string) : result (list row) :=
  notional_value ←
    mapR (fun symbol => ob ← get_order_book symbol; notional_value_of symbol ob) symbols;
  Ok (concat notional_value).

(** *** Spread *)

(** The dictionary built for one book-ticker record. *)
Definition spread_row (x : dict) : result row :=
  s ← getitem x "symbol";
  a ← getitem x "askPrice";
  a ← Decimal a;
  b ← getitem x "bidPrice";
  b ← Decimal b;
  v ← Dec.sub a b;
  Ok (mkrow s (PyDecimal v) None None).

Definition get_price_spread_by_symbols (symbols : list string)
    (book_ticker : list dict) : result (list row) :=
  filtered_symbols_book_ticker ←
    filterR (fun x => s ← getitem x "symbol"; Ok (contains symbols s)) book_ticker;
  mapR spread_row filtered_symbols_book_ticker.

(** The records whose symbol is one of [symbols]. *)
Definition requested (symbols : list string) (x : dict) : bool :=
  match x !! "symbol" with
  | Some s => contains symbols s
  | None => false
  end.

(** What the spread entry [o] of a record [x] is: the record's symbol and
    the Decimal difference of its two prices, which is the exact
    difference whenever that fits the context. *)
Definition spread_of (x : dict) (o : row) : Prop :=
  exists a b ask bid v,
    x !! "symbol" = Some (symbol o) /\
    x !! "askPrice" = Some a /\ x !! "bidPrice" = Some b /\
    Decimal a = Ok ask /\ Decimal b = Ok bid /\
    Dec.sub ask bid = Ok v /\
    o = mkrow (symbol o) (PyDecimal v) None None /\
    (fits (exact_sub ask bid) -> v = exact_sub ask bid).

(** *** Report *)

Definition format_line (notional spread_delta : bool) (r : row) : result string :=
  let head := ljust 9 (symbol r +:+ ":") in
  v ← py_format_f (value r);
  let v := if notional
           then (match type r with Some t => t | None => "None" end) +:+ " - " +:+ v
           else v in
  body ← (if spread_delta then
            match delta r with
            | Some d =>
                d ← py_format_f d;
                Ok ("spread - " +:+ v +:+ " : delta - " +:+ d)
            | None => Raise TypeError
            end
          else Ok v);
  Ok (head +:+ " " +:+ body).

(** The point and the digits after it, when there are any. *)
Definition point (fracpart : list ascii) : list ascii :=
  match fracpart with [] => [] | _ => "."%char :: fracpart end.

(** The lines [print_formatted_data] prints. *)
Definition print_formatted_data (data : list row) (notional spread_delta : bool)
    : result (list string) :=
  mapR (format_line notional spread_delta) data.

(** *** The polling loop *)

(** The two gauges, by symbol label: the numbers handed to [float]. *)
Record gauges : Type := mkgauges {
  prom_spread : gmap string pynum;
  spread_delta : gmap string pynum
}.

(** [abs(new[i]["value"] - previous[i]["value"])]. *)
Definition abs_delta (n p : row) : result pynum :=
  d ← py_sub (value n) (value p); py_abs d.

(** The [for i in range(len(new))] loop from index [i] on: [rest] is
    [new[i:]], [prev] the whole previous list. *)
Fixpoint delta_loop (i : nat) (rest prev : list row) (g : gauges)
    : result (list row * gauges) :=
  match rest with
  | [] => Ok ([], g)
  | n :: rest' =>
      p ← list_getitem prev i;
      d ← abs_delta n p;
      let n' := mkrow (symbol n) (value n) (type n) (Some d) in
      let g' := mkgauges (<[symbol n := value n]> (prom_spread g))
                         (<[symbol n := d]> (spread_delta g)) in
      '(out, g'') ← delta_loop (S i) rest' prev g';
      Ok (n' :: out, g'')
  end.

(** No subtraction of two paired values leaves the exponent range of the
    context (the only way [abs_delta] can raise). *)
Definition deltas_defined (cur prev : list row) : Prop :=
  forall i c p, cur !! i = Some c -> prev !! i = Some p ->
    exists d, abs_delta c p = Ok d.

(** One turn of [while True]: fetch, deltas, report; the new list becomes
    the previous one. *)
Definition poll_cycle (symbols_for_spread : list string) (book_ticker : list dict)
    (prev : list row) (g : gauges) : result (list row * gauges * list string) :=
  new ← get_price_spread_by_symbols symbols_for_spread book_ticker;
  '(new', g') ← delta_loop 0 new prev g;
  lines ← print_formatted_data new' false true;
  Ok (new', g', lines).

(** *** Inputs of the examples *)

(** [Decimal(s)] for a literal [s] that denotes a finite number. *)
Definition D (s : string) : pynum :=
  match Decimal s with
  | Ok d => PyDecimal d
  | Raise _ => PyInt 0
  end.

(** A spread entry as [get_price_spread_by_symbols] builds it. *)
Definition spread (s v : string) : row := mkrow s (D v) None None.

Definition no_gauges : gauges := mkgauges ∅ ∅.

(** An exchange-info symbol and a 24h ticker. *)
Definition exchange_symbol (s quote : string) : dict :=
  {[ "symbol" := s; "quoteAsset" := quote ]}.

Definition ticker (s volume : string) : dict :=
  {[ "symbol" := s; "volume" := volume ]}.

(** A book-ticker record. *)
Definition book_ticker_record (s ask bid : string) : dict :=
  {[ "symbol" := s; "askPrice" := ask; "bidPrice" := bid ]}.

(** *** Further definitions for the properties below *)

(** The characters of a printed number: a digit, the sign or the point;
    none is white space or an underscore. *)
Definition numeric_char (c : ascii) : Prop :=
  is_digit c = true \/ c = "-"%char \/ c = "."%char.

(** The numbers [format(v, 'f')] prints as they are: a Decimal, or an
    [int] that a double holds exactly. *)
Definition exact_float (v : pynum) : Prop :=
  match v with
  | PyInt z => Z.abs z < 2 ^ 53
  | PyDecimal _ => True
  end.

(** *** The file cache

    [cached] keeps the result of a function in [/tmp/<name>.pickle] and
    returns it again while the file is younger than [ttl].  The files are
    a map from path to modification time and stored value; the clock is
    read by [time.time()] and by every write, one reading per tick.
    Times are Python floats: their addition to an [int] and their
    comparison are taken as they are, any interpretation will do. *)

(** [ttl] as the program can have it: an [int], or the string that
    [os.getenv("CACHE_TTL", 60)] gives when the variable is set. *)
Inductive pyttl : Type :=
| TtlInt (z : Z)
| TtlStr (s : string).

(** The truth value of [CACHE = os.getenv("CACHE", True)]: [True] when the
    variable is unset, else that of its string. *)
Definition CACHE (environ : gmap string string) : bool :=
  match environ !! "CACHE" with
  | None => true
  | Some s => negb (bool_decide (s = ""))
  end.

Definition CACHE_TTL (environ : gmap string string) : pyttl :=
  match environ !! "CACHE_TTL" with
  | None => TtlInt 60
  | Some s => TtlStr s
  end.

Record world (T V : Type) : Type := mkworld {
  files : gmap string (T * V);
  ticks : nat
}.
Arguments mkworld {T V} _ _.
Arguments files {T V} _.
Arguments ticks {T V} _.

Definition cache_file (name : string) : string := "/tmp/" +:+ name +:+ ".pickle".

Section Cached.
Context {T V : Type}.
Variable float_add : T -> Z -> T.
Variable float_ge : T -> T -> bool.
Variable clock : nat -> T.
Variable environ : gmap string string.

(** The call of the wrapped function and the write of its result. *)
Definition call_and_store (filename : string) (func : result V) (w : world T V)
    : result V * world T V :=
  match func with
  | Ok result =>
      (Ok result,
       mkworld (<[filename := (clock (ticks w), result)]> (files w)) (S (ticks w)))
  | Raise e => (Raise e, w)
  end.

(** [wrapper] of [cached]: [func] is the outcome the wrapped call has if
    it is made; [name] is [func.__name__]. *)
Definition cached (ttl : pyttl) (name : string) (func : result V) (w : world T V)
    : result V * world T V :=
  let filename := cache_file name in
  match files w !! filename with
  | Some (file_mtime, content) =>
      if CACHE environ then
        let current_time := clock (ticks w) in
        let w := mkworld (files w) (S (ticks w)) in
        match ttl with
        | TtlInt ttl =>
            if float_ge (float_add file_mtime ttl) current_time
            then (Ok content, w)
            else call_and_store filename func w
        | TtlStr _ => (Raise TypeError, w)
        end
      else call_and_store filename func w
  | None => call_and_store filename func w
  end.

(** The gateway: the outcome of a GET of an API path with parameters. *)
Variable gateway : string -> list (string * string) -> result (response V).

Definition get_exchange_info : world T V -> result V * world T V :=
  cached (CACHE_TTL environ) "get_exchange_info" (safe_request (gateway "exchangeInfo" [])).

Definition get_24h_ticker : world T V -> result V * world T V :=
  cached (CACHE_TTL environ) "get_24h_ticker" (safe_request (gateway "ticker/24hr" [])).

Definition get_order_book (symbol : string) : world T V -> result V * world T V :=
  cached (CACHE_TTL environ) "get_order_book"
    (safe_request (gateway "depth" [("symbol", symbol); ("limit", "500")])).

Definition get_book_ticker : world T V -> result V * world T V :=
  cached (TtlInt 10) "get_book_ticker" (safe_request (gateway "ticker/bookTicker" [])).

(** Reading a response as an order book, [order_book["asks"]]. *)
Variable as_order_book : V -> result order_book.

(** The loop of [get_top_total_notional_value_by_symbols] over the cached
    [get_order_book]. *)
Fixpoint notional_value_loop (symbols : list string) (w : world T V)
    : result (list row) * world T V :=
  match symbols with
  | [] => (Ok [], w)
  | symbol :: symbols' =>
      let '(r, w) := get_order_book symbol w in
      match (p ← r; ob ← as_order_book p; notional_value_of symbol ob) with
      | Ok rows =>
          let '(r', w) := notional_value_loop symbols' w in
          (rest ← r'; Ok (rows ++ rest), w)
      | Raise e => (Raise e, w)
      end
  end.

(** Reading a response as a list of records. *)
Variable as_records : V -> result (list dict).

(** [get_price_spread_by_symbols] over the cached [get_book_ticker]. *)
Definition get_price_spread_cached (symbols : list string) (w : world T V)
    : result (list row) * world T V :=
  let '(r, w) := get_book_ticker w in
  (p ← r; book_ticker ← as_records p; get_price_spread_by_symbols symbols book_ticker, w).

(** The file of [name] is younger than [ttl] at each of the [n] readings
    of the clock from tick [t] on. *)
Definition fresh_from (ttl : Z) (name : string) (w : world T V) (t n : nat) : Prop :=
  exists m v, files w !! cache_file name = Some (m, v) /\
              forall k, (t <= k < t + n)%nat -> float_ge (float_add m ttl) (clock k) = true.
End Cached.

(** *** Inputs of the examples, continued *)

(** A clock that advances one second per reading, times in seconds. *)
Definition seconds (tick : nat) : Z := Z.of_nat tick.

(** A gateway whose order book depends on the symbol asked for. *)
Definition depth_gateway (api : string) (params : list (string * string))
    : result (response order_book) :=
  match params with
  | (_, symbol) :: _ =>
      Ok (mkresponse 200
            (Ok (mkbook [(if bool_decide (symbol = "A") then "2" else "3", "1")] [])))
  | [] => Ok (mkresponse 404 (Raise JSONDecodeError))
  end.

Definition empty_world : world Z order_book := mkworld ∅ 0.

(** A gateway with one book-ticker record. *)
Definition book_ticker_gateway (api : string) (params : list (string * string))
    : result (response (list dict)) :=
  Ok (mkresponse 200 (Ok [book_ticker_record "A" "2.5" "1.0"])).

(** * Properties *)

(** ** The error monad *)

Lemma result_bind_assoc {A B C} (m : result A) (f : A -> result B) (g : B -> result C) :
  (y ← (x ← m; f x); g y) = (x ← m; y ← f x; g y).
Proof. by destruct m. Qed.

Lemma mapR_Ok_length {A B} (f : A -> result B) l out :
  mapR f l = Ok out -> length out = length l.
Proof.
  revert out; induction l as [|x l IH]; intros out; simpl.
  - by intros [= <-].
  - destruct (f x) as [y|]; simpl; [|done].
    destruct (mapR f l) as [ys|]; simpl; [|done].
    intros [= <-]. simpl. by rewrite (IH ys).
Qed.

Lemma mapR_Ok_Forall2 {A B} (f : A -> result B) l out :
  mapR f l = Ok out <-> Forall2 (fun x y => f x = Ok y) l out.
Proof.
  revert out; induction l as [|x l IH]; intros out; simpl.
  - split; [intros [= <-]; constructor | by inversion 1].
  - split.
    + destruct (f x) as [y|] eqn:Hx; simpl; [|done].
      destruct (mapR f l) as [ys|] eqn:Hl; simpl; [|done].
      intros [= <-]. constructor; [done | by apply IH].
    + inversion 1 as [|? y ? ys Hx Hl]; subst.
      apply IH in Hl. by rewrite Hx, Hl.
Qed.

Lemma mapR_raises {A B} (f : A -> result B) l x :
  x ∈ l -> raises (f x) -> raises (mapR f l).
Proof.
  intros Hin Hx. induction Hin as [x l|x y l Hin IH]; simpl.
  - destruct Hx as [e ->]. by exists e.
  - destruct (f y) as [z|e1]; simpl; [|by exists e1].
    destruct (IH Hx) as [e2 ->]. by exists e2.
Qed.

Lemma filterR_Ok_inv {A} (p : A -> result bool) l out :
  filterR p l = Ok out ->
  Forall (fun x => exists b, p x = Ok b) l /\
  out = List.filter (fun x => is_true (p x)) l.
Proof.
  revert out; induction l as [|x l IH]; intros out; simpl.
  - intros [= <-]. by split.
  - destruct (p x) as [b|] eqn:Hx; simpl; [|done].
    destruct (filterR p l) as [ys|]; simpl; [|done].
    intros [= <-]. destruct (IH ys eq_refl) as [Hall ->].
    split; [constructor; eauto|]. by destruct b.
Qed.

Lemma filterR_total {A} (p : A -> result bool) l :
  Forall (fun x => exists b, p x = Ok b) l ->
  filterR p l = Ok (List.filter (fun x => is_true (p x)) l).
Proof.
  induction 1 as [|x l [b Hx] _ IH]; simpl; [done|].
  rewrite Hx, IH. simpl. by destruct b.
Qed.

(** ** The order of Decimals *)

Module DecFacts.

Lemma pow10_pos k : (0 < pow10 k)%N.
Proof. unfold pow10. apply N.neq_0_lt_0, N.pow_nonzero. done. Qed.

Lemma pow10_add a b : 0 <= a -> 0 <= b -> pow10 (a + b) = (pow10 a * pow10 b)%N.
Proof.
  intros Ha Hb. unfold pow10. by rewrite Z2N.inj_add, N.pow_add_r.
Qed.

Lemma scaled_rescale m e d :
  m <= e -> e <= exp d -> scaled m d = scaled e d * Z.of_N (pow10 (e - m)).
Proof.
  intros Hm He. unfold scaled.
  replace (exp d - m) with ((exp d - e) + (e - m)) by lia.
  rewrite pow10_add by lia.
  destruct (sign d); lia.
Qed.

Lemma cmp_scaled m a b :
  m <= exp a -> m <= exp b -> cmp a b = (scaled m a ?= scaled m b).
Proof.
  intros Ha Hb. unfold cmp.
  set (e := Z.min (exp a) (exp b)).
  rewrite (scaled_rescale m e a), (scaled_rescale m e b) by lia.
  pose proof (pow10_pos (e - m)).
  apply Zmult_compare_compat_r. lia.
Qed.

#[local] Abbreviation min3 a b c := (Z.min (exp a) (Z.min (exp b) (exp c))).

Lemma ltb_scaled m a b :
  m <= exp a -> m <= exp b -> ltb a b = true <-> scaled m a < scaled m b.
Proof.
  intros Ha Hb. unfold ltb. rewrite (cmp_scaled m) by done.
  unfold Z.lt. destruct (scaled m a ?= scaled m b); split; congruence.
Qed.

Lemma numeq_scaled m a b :
  m <= exp a -> m <= exp b -> numeq a b = true <-> scaled m a = scaled m b.
Proof.
  intros Ha Hb. unfold numeq. rewrite (cmp_scaled m) by done.
  rewrite <- Z.compare_eq_iff.
  destruct (scaled m a ?= scaled m b); split; congruence.
Qed.

Lemma ltb_irrefl a : ltb a a = false.
Proof.
  destruct (ltb a a) eqn:H; [|done].
  apply (ltb_scaled (exp a)) in H; lia.
Qed.

Lemma ltb_trans a b c : ltb a b = true -> ltb b c = true -> ltb a c = true.
Proof.
  intros Hab Hbc.
  apply (ltb_scaled (min3 a b c)) in Hab; [|lia..].
  apply (ltb_scaled (min3 a b c)) in Hbc; [|lia..].
  apply (ltb_scaled (min3 a b c)); [lia..|]. lia.
Qed.

Lemma ltb_cotrans a b c : ltb a c = true -> ltb a b = true \/ ltb b c = true.
Proof.
  intros Hac.
  apply (ltb_scaled (min3 a b c)) in Hac; [|lia..].
  destruct (Z_lt_le_dec (scaled (min3 a b c) a) (scaled (min3 a b c) b)) as [H|H].
  - left. apply (ltb_scaled (min3 a b c)); [lia..|]. done.
  - right. apply (ltb_scaled (min3 a b c)); [lia..|]. lia.
Qed.

Lemma numeq_ltb a b : numeq a b = negb (ltb a b) && negb (ltb b a).
Proof.
  unfold numeq, ltb, cmp. rewrite (Z.min_comm (exp b)).
  rewrite (Z.compare_antisym (scaled _ a)).
  by destruct (scaled _ a ?= scaled _ b).
Qed.

(** [exact_mul] and [exact_add] are exact: at a common exponent the
    scaled integer values multiply and add. *)
Lemma exact_mul_scaled a b ea eb :
  ea <= exp a -> eb <= exp b ->
  scaled (ea + eb) (exact_mul a b) = scaled ea a * scaled eb b.
Proof.
  intros Ha Hb. unfold scaled, exact_mul. simpl.
  replace (exp a + exp b - (ea + eb)) with ((exp a - ea) + (exp b - eb)) by lia.
  rewrite pow10_add by lia. rewrite !N2Z.inj_mul.
  destruct (sign a), (sign b); simpl; ring.
Qed.

Lemma exact_add_scaled m a b :
  m <= Z.min (exp a) (exp b) ->
  scaled m (exact_add a b) = scaled m a + scaled m b.
Proof.
  intros Hm. set (e := Z.min (exp a) (exp b)) in *.
  rewrite (scaled_rescale m e a), (scaled_rescale m e b) by lia.
  unfold exact_add. fold e. set (s := scaled e a + scaled e b).
  rewrite <- Z.mul_add_distr_r. fold s.
  destruct (s =? 0) eqn:Hz.
  - apply Z.eqb_eq in Hz. rewrite Hz. unfold scaled. simpl.
    by destruct (sign a && sign b).
  - apply Z.eqb_neq in Hz. unfold scaled. simpl.
    rewrite N2Z.inj_mul, N2Z.inj_abs_N.
    destruct (s <? 0) eqn:Hs.
    + rewrite Z.abs_neq by lia. ring.
    + rewrite Z.abs_eq by lia. ring.
Qed.

(** A number that fits the context is left as it is. *)
Lemma fix_fits d : fits d -> fix_ d = Ok d.
Proof.
  intros (Hd & He1 & He2). unfold fix_.
  destruct (coef d =? 0)%N eqn:Hz.
  - apply N.eqb_eq in Hz. destruct d as [s c e]; simpl in *; subst.
    f_equal. f_equal. unfold Etop, Emax, prec in *. lia.
  - assert ((Etop <? ndigits (coef d) + exp d - prec) = false) as -> by lia.
    assert ((exp d <? Z.max (ndigits (coef d) + exp d - prec) Etiny) = false) as -> by lia.
    done.
Qed.

End DecFacts.

(** ** [sorted] *)

Section SortedFacts.
Context {A K : Type} (lt : K -> K -> bool) (key : A -> K).
Hypothesis lt_irrefl : forall a, lt a a = false.
Hypothesis lt_trans : forall a b c, lt a b = true -> lt b c = true -> lt a c = true.
Hypothesis lt_cotrans : forall a b c, lt a c = true -> lt a b = true \/ lt b c = true.

#[local] Abbreviation ascending := (ascending lt key).
#[local] Abbreviation descending := (descending lt key).
#[local] Abbreviation tied := (tied lt key).

Lemma lt_asym a b : lt a b = true -> lt b a = false.
Proof.
  intros Hab. destruct (lt b a) eqn:Hba; [|done].
  pose proof (lt_trans _ _ _ Hab Hba) as H. by rewrite lt_irrefl in H.
Qed.

Lemma ascending_trans x y z : ascending x y -> ascending y z -> ascending x z.
Proof.
  unfold ascending. intros Hxy Hyz.
  destruct (lt (key z) (key x)) eqn:H; [|done].
  destruct (lt_cotrans _ (key y) _ H); congruence.
Qed.

Lemma insert_sorted_perm x l : insert_sorted lt key x l ≡ₚ x :: l.
Proof.
  induction l as [|y l IH]; simpl; [done|].
  destruct (lt (key y) (key x)); [|done].
  rewrite IH. apply Permutation_swap.
Qed.

Lemma stable_sort_perm l : stable_sort lt key l ≡ₚ l.
Proof.
  induction l as [|x l IH]; simpl; [done|].
  by rewrite insert_sorted_perm, IH.
Qed.

Lemma insert_sorted_sorted x l :
  StronglySorted ascending l -> StronglySorted ascending (insert_sorted lt key x l).
Proof.
  induction 1 as [|y l Hl IH Hy]; simpl.
  - repeat constructor.
  - destruct (lt (key y) (key x)) eqn:Hyx.
    + constructor; [done|].
      rewrite insert_sorted_perm. constructor; [|done].
      unfold ascending. by apply lt_asym.
    + constructor; [by constructor|].
      constructor; [done|].
      eapply Forall_impl; [exact Hy|]. intros z Hz.
      by apply (ascending_trans x y z).
Qed.

Lemma stable_sort_sorted l : StronglySorted ascending (stable_sort lt key l).
Proof.
  induction l as [|x l IH]; simpl; [constructor|].
  by apply insert_sorted_sorted.
Qed.

Lemma insert_sorted_tied k x l :
  List.filter (tied k) (insert_sorted lt key x l) = List.filter (tied k) (x :: l).
Proof.
  induction l as [|y l IH]; simpl; [done|].
  destruct (lt (key y) (key x)) eqn:Hyx; [|done].
  simpl in *. rewrite IH.
  destruct (tied k x) eqn:Hx; [|done].
  destruct (tied k y) eqn:Hy; [|done]. exfalso.
  unfold tied in Hx, Hy.
  apply andb_prop in Hx as [Hx1 Hx2], Hy as [Hy1 Hy2].
  apply negb_true_iff in Hx1, Hx2, Hy1, Hy2.
  destruct (lt_cotrans _ k _ Hyx); congruence.
Qed.

Lemma stable_sort_tied k l :
  List.filter (tied k) (stable_sort lt key l) = List.filter (tied k) l.
Proof.
  induction l as [|x l IH]; simpl; [done|].
  rewrite insert_sorted_tied. simpl. by rewrite IH.
Qed.

Lemma StronglySorted_rev (R : A -> A -> Prop) l :
  StronglySorted R l -> StronglySorted (flip R) (rev l).
Proof.
  induction 1 as [|x l Hl IH Hx]; simpl; [constructor|].
  apply StronglySorted_app_2; [|done|repeat constructor].
  intros a b Ha Hb. apply list_elem_of_In, in_rev, list_elem_of_In in Ha.
  apply list_elem_of_singleton in Hb as ->.
  rewrite Forall_forall in Hx. by apply Hx.
Qed.

(** Descending [sorted]: a permutation, in descending key order, every
    group of equal keys in its original order. *)
Lemma sorted_reverse_perm l : sorted lt key true l ≡ₚ l.
Proof.
  unfold sorted. rewrite <- (Permutation_rev (stable_sort _ _ _)).
  rewrite stable_sort_perm. symmetry. apply Permutation_rev.
Qed.

Lemma sorted_reverse_descending l : StronglySorted descending (sorted lt key true l).
Proof. apply StronglySorted_rev, stable_sort_sorted. Qed.

Lemma sorted_reverse_stable k l :
  List.filter (tied k) (sorted lt key true l) = List.filter (tied k) l.
Proof.
  unfold sorted. rewrite filter_rev, stable_sort_tied, filter_rev.
  apply rev_involutive.
Qed.

(** The first [n] of a descending [sorted]: the head of the order, and
    what is left out ranks no higher. *)
Lemma sorted_reverse_take n l :
  let out := take n (sorted lt key true l) in
  length out = Nat.min n (length l) /\
  StronglySorted descending out /\
  (forall k, List.filter (tied k) out `prefix_of` List.filter (tied k) l) /\
  exists rest, out ++ rest ≡ₚ l /\
               forall a b, a ∈ out -> b ∈ rest -> descending a b.
Proof.
  intros out. subst out.
  pose proof (sorted_reverse_descending l) as Hs.
  pose proof (sorted_reverse_perm l) as Hp.
  rewrite <- (take_drop n (sorted lt key true l)) in Hs.
  repeat split.
  - rewrite length_take. by rewrite (Permutation_length Hp).
  - by apply StronglySorted_app_1_l in Hs.
  - intros k. rewrite <- (sorted_reverse_stable k l).
    rewrite <- (take_drop n (sorted lt key true l)) at 2.
    rewrite List.filter_app. by eexists.
  - exists (drop n (sorted lt key true l)). split.
    + by rewrite take_drop.
    + intros a b Ha Hb. by apply (StronglySorted_app_1_elem_of _ _ _ _ _ Hs).
Qed.

Lemma sorted_forward_perm l : sorted lt key false l ≡ₚ l.
Proof. apply stable_sort_perm. Qed.

Lemma sorted_forward_ascending l : StronglySorted ascending (sorted lt key false l).
Proof. apply stable_sort_sorted. Qed.

Lemma sorted_forward_stable k l :
  List.filter (tied k) (sorted lt key false l) = List.filter (tied k) l.
Proof. apply stable_sort_tied. Qed.
End SortedFacts.

(** ** The delta loop *)

Lemma delta_loop_drop i rest prev g :
  delta_loop i rest prev g = delta_loop 0 rest (drop i prev) g.
Proof.
  revert i prev g. induction rest as [|n rest IH]; intros i prev g; simpl; [done|].
  unfold list_getitem. rewrite (lookup_drop prev i 0), Nat.add_0_r.
  destruct (prev !! i) as [p|]; simpl; [|done].
  destruct (abs_delta n p) as [d|]; simpl; [|done].
  rewrite (IH (S i) prev), (IH 1%nat (drop i prev)), drop_drop.
  by replace (i + 1)%nat with (S i) by lia.
Qed.

Lemma delta_loop_cons n rest p prev g :
  delta_loop 0 (n :: rest) (p :: prev) g =
    d ← abs_delta n p;
    '(out, g') ← delta_loop 0 rest prev
                   (mkgauges (<[symbol n := value n]> (prom_spread g))
                             (<[symbol n := d]> (spread_delta g)));
    Ok (mkrow (symbol n) (value n) (type n) (Some d) :: out, g').
Proof.
  simpl. destruct (abs_delta n p) as [d|]; simpl; [|done].
  by rewrite delta_loop_drop.
Qed.

Lemma delta_loop_nil_prev n rest g :
  delta_loop 0 (n :: rest) [] g = Raise IndexError.
Proof. done. Qed.

(** What a completed loop leaves: one entry per current entry, each with
    the delta against the previous entry at the same index. *)
Lemma delta_loop_Ok cur prev g out g' :
  delta_loop 0 cur prev g = Ok (out, g') ->
  length out = length cur /\
  forall i c, cur !! i = Some c ->
    exists p d, prev !! i = Some p /\ abs_delta c p = Ok d /\
      out !! i = Some (mkrow (symbol c) (value c) (type c) (Some d)).
Proof.
  revert prev g out g'. induction cur as [|n cur IH]; intros prev g out g'.
  - simpl. intros [= <- <-]. split; [done|]. intros i c. by rewrite lookup_nil.
  - destruct prev as [|p prev]; [done|].
    rewrite delta_loop_cons.
    destruct (abs_delta n p) as [d|] eqn:Hd; simpl; [|done].
    destruct (delta_loop 0 cur prev _) as [[out1 g1]|] eqn:Hl; simpl; [|done].
    intros [= <- <-]. destruct (IH _ _ _ _ Hl) as [Hlen Hi].
    split; [simpl; by rewrite Hlen|].
    intros [|i] c; simpl.
    + intros [= <-]. by exists p, d.
    + apply Hi.
Qed.

Lemma delta_loop_total cur prev g :
  (length cur <= length prev)%nat ->
  deltas_defined cur prev ->
  exists out g', delta_loop 0 cur prev g = Ok (out, g').
Proof.
  revert prev g. induction cur as [|n cur IH]; intros prev g Hlen Har.
  - by exists [], g.
  - destruct prev as [|p prev]; [simpl in Hlen; lia|].
    rewrite delta_loop_cons.
    destruct (Har 0%nat n p eq_refl eq_refl) as [d ->]. simpl.
    edestruct (IH prev) as (out & g' & ->).
    + simpl in Hlen. lia.
    + intros i c q Hc Hq. by apply (Har (S i)).
    + simpl. eauto.
Qed.

Lemma delta_loop_longer cur prev g :
  (length prev < length cur)%nat -> raises (delta_loop 0 cur prev g).
Proof.
  revert prev g. induction cur as [|n cur IH]; intros prev g Hlen.
  - simpl in Hlen. lia.
  - destruct prev as [|p prev]; [by exists IndexError|].
    rewrite delta_loop_cons.
    destruct (abs_delta n p) as [d|e]; simpl; [|by exists e].
    edestruct (IH prev) as [e ->]; [simpl in Hlen; lia|]. by exists e.
Qed.

Lemma fix_raise d e : fix_ d = Raise e -> e = Overflow.
Proof.
  unfold fix_. repeat case_match; congruence.
Qed.

Lemma abs_delta_raise n p e : abs_delta n p = Raise e -> e = Overflow.
Proof.
  unfold abs_delta, py_sub, py_abs, Dec.sub, Dec.abs.
  destruct (value n), (value p); simpl;
    repeat match goal with
           | |- context [fix_ ?d] =>
               let H := fresh in destruct (fix_ d) eqn:H; simpl;
               try apply fix_raise in H
           end; congruence.
Qed.

(** Where the difference fits the context the delta is its exact
    absolute value. *)
Lemma abs_delta_exact c p a b :
  value c = PyDecimal a -> value p = PyDecimal b ->
  fits (exact_sub a b) ->
  abs_delta c p = Ok (PyDecimal (copy_abs (exact_sub a b))).
Proof.
  intros Hc Hp Hfit. unfold abs_delta. rewrite Hc, Hp.
  cbn [py_sub to_dec]. unfold Dec.sub. rewrite (DecFacts.fix_fits _ Hfit).
  cbn. unfold Dec.abs. by rewrite (DecFacts.fix_fits (copy_abs (exact_sub a b))).
Qed.

Lemma delta_loop_no_IndexError cur prev g :
  (length cur <= length prev)%nat ->
  delta_loop 0 cur prev g <> Raise IndexError.
Proof.
  assert (Har : forall n p, abs_delta n p <> Raise IndexError).
  { intros n p H. by apply abs_delta_raise in H. }
  intros Hlen. revert prev g Hlen.
  induction cur as [|n cur IH]; intros prev g Hlen; [done|].
  destruct prev as [|p prev]; [simpl in Hlen; lia|].
  rewrite delta_loop_cons.
  destruct (abs_delta n p) as [d|e] eqn:Hd; simpl; [|congruence].
  specialize (IH prev (mkgauges (<[symbol n := value n]> (prom_spread g))
                               (<[symbol n := d]> (spread_delta g)))).
  destruct (delta_loop 0 cur prev _) as [[??]|e]; simpl; [done|].
  intros [= ->]. apply IH; [simpl in Hlen; lia|done].
Qed.

Lemma delta_loop_longer_IndexError cur prev g :
  (length prev < length cur)%nat -> deltas_defined cur prev ->
  delta_loop 0 cur prev g = Raise IndexError.
Proof.
  revert prev g. induction cur as [|n cur IH]; intros prev g Hlen Har.
  - simpl in Hlen. lia.
  - destruct prev as [|p prev]; [done|].
    rewrite delta_loop_cons.
    destruct (Har 0%nat n p eq_refl eq_refl) as [d ->]. simpl.
    rewrite IH; [done|simpl in Hlen; lia|].
    intros i c q Hc Hq. by apply (Har (S i)).
Qed.

Lemma delta_loop_values cur prev prev' g :
  value <$> prev' = value <$> prev ->
  delta_loop 0 cur prev' g = delta_loop 0 cur prev g.
Proof.
  revert prev prev' g. induction cur as [|n cur IH]; intros prev prev' g Hv; [done|].
  destruct prev as [|p prev], prev' as [|p' prev']; try done.
  injection Hv as Hp Hv. rewrite !delta_loop_cons.
  unfold abs_delta. rewrite Hp.
  destruct (py_sub (value n) (value p)) as [d0|]; simpl; [|done].
  destruct (py_abs d0) as [d|]; simpl; [|done].
  by rewrite (IH prev prev').
Qed.

Lemma poll_cycle_longer symbols book new prev g :
  get_price_spread_by_symbols symbols book = Ok new ->
  (length prev < length new)%nat ->
  raises (poll_cycle symbols book prev g).
Proof.
  intros Hnew Hlen. unfold poll_cycle. rewrite Hnew. simpl.
  destruct (delta_loop_longer new prev g Hlen) as [e ->]. by exists e.
Qed.

Lemma delta_loop_take cur prev g :
  delta_loop 0 cur prev g = delta_loop 0 cur (take (length cur) prev) g.
Proof.
  revert prev g. induction cur as [|n cur IH]; intros prev g; [done|].
  destruct prev as [|p prev]; [done|].
  simpl take. rewrite !delta_loop_cons.
  destruct (abs_delta n p) as [d|]; simpl; [|done].
  by rewrite IH.
Qed.

Lemma delta_loop_raise cur prev g e :
  delta_loop 0 cur prev g = Raise e -> e = IndexError \/ e = Overflow.
Proof.
  revert prev g. induction cur as [|n cur IH]; intros prev g; [done|].
  destruct prev as [|p prev]; [intros [= <-]; by left|].
  rewrite delta_loop_cons.
  destruct (abs_delta n p) as [d|e'] eqn:Hd; simpl.
  - destruct (delta_loop 0 cur prev _) as [[??]|e'] eqn:Hl; simpl; [done|].
    intros [= <-]. by apply (IH _ _ Hl).
  - intros [= <-]. right. by apply abs_delta_raise in Hd.
Qed.

Lemma delta_loop_Ok_defined cur prev g out g' :
  delta_loop 0 cur prev g = Ok (out, g') ->
  (length cur <= length prev)%nat /\ deltas_defined cur prev.
Proof.
  intros Hout. split.
  - destruct (le_lt_dec (length cur) (length prev)) as [|Hlt]; [done|].
    destruct (delta_loop_longer cur prev g Hlt) as [e He]. congruence.
  - intros i c p Hc Hp.
    destruct (delta_loop_Ok _ _ _ _ _ Hout) as [_ Hi].
    destruct (Hi i c Hc) as (p' & d & Hp' & Hd & _).
    exists d. congruence.
Qed.

(** C9 (amended): the loop indexes the previous list at every index of
    the current one without a bounds check.  It completes exactly when the
    current list is no longer than the previous one and no paired
    subtraction leaves the exponent range; the lookup fails (IndexError)
    only when the current list is longer, and then the loop and the cycle
    fail; nothing but IndexError and the Overflow of a subtraction is
    raised; of a longer previous list only the first [length cur] entries
    are read. *)
Theorem C9_delta_loop_bounds (cur prev : list row) (g : gauges) :
  ((exists out g', delta_loop 0 cur prev g = Ok (out, g')) <->
     (length cur <= length prev)%nat /\ deltas_defined cur prev) /\
  ((length prev < length cur)%nat ->
     raises (delta_loop 0 cur prev g) /\
     (deltas_defined cur prev -> delta_loop 0 cur prev g = Raise IndexError) /\
     (forall symbols book,
        get_price_spread_by_symbols symbols book = Ok cur ->
        raises (poll_cycle symbols book prev g))) /\
  ((length cur <= length prev)%nat -> delta_loop 0 cur prev g <> Raise IndexError) /\
  (forall e, delta_loop 0 cur prev g = Raise e -> e = IndexError \/ e = Overflow) /\
  delta_loop 0 cur prev g = delta_loop 0 cur (take (length cur) prev) g.
Proof.
  repeat split.
  - destruct H as (out & g' & Hout). by apply (delta_loop_Ok_defined cur prev g out g').
  - destruct H as (out & g' & Hout). by apply (delta_loop_Ok_defined cur prev g out g').
  - intros [Hlen Har]. by apply delta_loop_total.
  - by apply delta_loop_longer.
  - by apply delta_loop_longer_IndexError.
  - intros symbols book Hnew. by apply (poll_cycle_longer symbols book cur).
  - by apply delta_loop_no_IndexError.
  - apply delta_loop_raise.
  - apply delta_loop_take.
Qed.

Lemma C9_witness :
  delta_loop 0 [spread "A" "1.5"; spread "B" "2.5"] [spread "A" "1.0"] no_gauges
    = Raise IndexError /\
  exists out g',
    delta_loop 0 [spread "A" "1.5"] [spread "A" "1.0"; spread "B" "2.0"] no_gauges
      = Ok (out, g').
Proof.
  split.
  - destruct (C9_delta_loop_bounds [spread "A" "1.5"; spread "B" "2.5"]
                [spread "A" "1.0"] no_gauges) as (_ & Hlonger & _).
    destruct Hlonger as (_ & Hidx & _); [simpl; lia|].
    apply Hidx.
    intros [|[|i]] c p; simpl; intros [= <-] Hp; try discriminate.
    injection Hp as <-. eexists. vm_compute. reflexivity.
  - destruct (C9_delta_loop_bounds [spread "A" "1.5"]
                [spread "A" "1.0"; spread "B" "2.0"] no_gauges) as (Htotal & _).
    apply Htotal. split.
    + simpl. lia.
    + intros [|i] c p; simpl; intros [= <-] [= <-].
      eexists. vm_compute. reflexivity.
Defined.

(** C9 as stated fails: with lists of the same length the loop does not
    complete when a subtraction leaves the exponent range of the context,
    here [9E+999999 - (-9E+999999)]. *)
Lemma C9_counterexample :
  (length [spread "A" "9E+999999"] <= length [spread "A" "-9E+999999"])%nat /\
  delta_loop 0 [spread "A" "9E+999999"] [spread "A" "-9E+999999"] no_gauges
    = Raise Overflow.
Proof. split; [simpl; lia|]. vm_compute. reflexivity. Qed.

(** ** Spread *)

Lemma filterR_ext {A} (p q : A -> result bool) l :
  (forall x, x ∈ l -> p x = q x) -> filterR p l = filterR q l.
Proof.
  induction l as [|x l IH]; intros H; simpl; [done|].
  rewrite (H x) by left. rewrite IH; [done|]. intros y Hy. apply H. by right.
Qed.

Lemma spread_row_spec x o : spread_row x = Ok o <-> spread_of x o.
Proof.
  unfold spread_row, spread_of, getitem. split.
  - destruct (x !! "symbol") as [s|]; simpl; [|done].
    destruct (x !! "askPrice") as [a|]; simpl; [|done].
    destruct (Decimal a) as [ask|] eqn:Ha; simpl; [|done].
    destruct (x !! "bidPrice") as [b|]; simpl; [|done].
    destruct (Decimal b) as [bid|] eqn:Hb; simpl; [|done].
    destruct (Dec.sub ask bid) as [v|] eqn:Hv; simpl; [|done].
    intros [= <-]. exists a, b, ask, bid, v. simpl. repeat split; try done.
    intros Hfit. unfold Dec.sub in Hv. rewrite (DecFacts.fix_fits _ Hfit) in Hv.
    congruence.
  - intros (a & b & ask & bid & v & -> & -> & -> & Ha & Hb & Hv & Ho & _). simpl.
    rewrite Ha. simpl. rewrite Hb. simpl. rewrite Hv. simpl. by rewrite Ho.
Qed.

Lemma requested_is_true symbols x :
  is_true (s ← getitem x "symbol"; Ok (contains symbols s)) = requested symbols x.
Proof.
  unfold requested, getitem. destruct (x !! "symbol"); simpl; [|done].
  by destruct (contains symbols _).
Qed.

Lemma get_price_spread_spec symbols book out :
  get_price_spread_by_symbols symbols book = Ok out <->
  Forall (fun x => is_Some (x !! "symbol")) book /\
  Forall2 spread_of (List.filter (requested symbols) book) out.
Proof.
  unfold get_price_spread_by_symbols.
  assert (Hf : List.filter (fun x => is_true (s ← getitem x "symbol"; Ok (contains symbols s))) book
               = List.filter (requested symbols) book).
  { apply List.filter_ext. intros x. apply requested_is_true. }
  split.
  - destruct (filterR _ book) as [fl|] eqn:Hfl; simpl; [|done].
    apply filterR_Ok_inv in Hfl as [Hall ->]. intros Hm. split.
    + eapply Forall_impl; [exact Hall|]. intros x [b Hb]. simpl in Hb.
      unfold getitem in Hb. by destruct (x !! "symbol").
    + rewrite <- Hf. apply mapR_Ok_Forall2 in Hm.
      eapply Forall2_impl; [exact Hm|]. intros x o. apply spread_row_spec.
  - intros [Hsym Hout]. rewrite filterR_total.
    + simpl. rewrite Hf. apply mapR_Ok_Forall2.
      eapply Forall2_impl; [exact Hout|]. intros x o. apply spread_row_spec.
    + eapply Forall_impl; [exact Hsym|]. intros x [s Hs]. simpl.
      unfold getitem. rewrite Hs. simpl. eauto.
Qed.





(** C10: a requested symbol without a book-ticker record changes nothing:
    the call gives the same result, error or not, as without that symbol,
    and no entry of the output bears it; so the output can have fewer
    entries than symbols were requested. *)
Theorem C10_absent_symbol_omitted :
  (forall (symbols1 symbols2 : list string) (s : string) (book : list dict),
     (forall x, x ∈ book -> x !! "symbol" <> Some s) ->
     get_price_spread_by_symbols (symbols1 ++ s :: symbols2) book
       = get_price_spread_by_symbols (symbols1 ++ symbols2) book /\
     forall out, get_price_spread_by_symbols (symbols1 ++ s :: symbols2) book = Ok out ->
       forall o, o ∈ out -> symbol o <> s) /\
  (exists (symbols : list string) (book : list dict) out,
     get_price_spread_by_symbols symbols book = Ok out /\
     (length out < length symbols)%nat).
Proof.
  split.
  - intros symbols1 symbols2 s book Habs. split.
    + unfold get_price_spread_by_symbols.
      rewrite (filterR_ext _
                 (fun x => s0 ← getitem x "symbol"; Ok (contains (symbols1 ++ symbols2) s0))); [done|].
      intros x Hx. unfold getitem. specialize (Habs x Hx).
      destruct (x !! "symbol") as [t|]; simpl; [|done].
      f_equal. unfold contains. apply bool_decide_ext.
      assert (t <> s) by congruence.
      rewrite !elem_of_app, elem_of_cons. intuition congruence.
    + intros out Hout o Ho Hs.
      apply get_price_spread_spec in Hout as [_ Hout].
      apply list_elem_of_lookup in Ho as [i Hi].
      destruct (Forall2_lookup_r _ _ _ _ _ Hout Hi) as (x & Hx & Hxo).
      destruct Hxo as (a & b & ask & bid & v & Hsym & _).
      apply list_elem_of_lookup_2, list_elem_of_In, List.filter_In in Hx as [Hx _].
      apply list_elem_of_In in Hx. apply (Habs x Hx). by rewrite Hsym, Hs.
  - exists ["A"; "Z"], [book_ticker_record "A" "2.0" "1.0"], [spread "A" "1.0"].
    split; [vm_compute; reflexivity | simpl; lia].
Qed.

Lemma C10_witness :
  get_price_spread_by_symbols (["A"] ++ "Z" :: []) [book_ticker_record "A" "2.0" "1.0"]
  = Ok [spread "A" "1.0"].
Proof.
  destruct C10_absent_symbol_omitted as [H _].
  destruct (H ["A"] [] "Z" [book_ticker_record "A" "2.0" "1.0"]) as [-> _].
  - intros x Hx. apply list_elem_of_singleton in Hx as ->. vm_compute. discriminate.
  - vm_compute. reflexivity.
Defined.

(** ** [safe_request] *)

(** C8 (amended): the wrapper raises exactly when the status is a client
    or server error (400..599) or the body does not decode; any other
    status, 2xx or not, returns the decoded body; a transport failure is
    passed on.  Nothing is retried and no fallback value is returned. *)
Theorem C8_safe_request {J : Type} (r : response J) :
  (raises (safe_request (Ok r)) <->
     400 <= status_code r < 600 \/ raises (json r)) /\
  (400 <= status_code r < 600 -> safe_request (Ok r) = Raise TypeError) /\
  (~ 400 <= status_code r < 600 -> safe_request (Ok r) = json r) /\
  (200 <= status_code r < 300 -> forall j, json r = Ok j -> safe_request (Ok r) = Ok j) /\
  (forall e, safe_request (J := J) (Raise e) = Raise e).
Proof.
  assert (Hs : raise_for_status r = true <-> 400 <= status_code r < 600).
  { unfold raise_for_status. lia. }
  unfold safe_request. simpl.
  destruct (raise_for_status r) eqn:Hr.
  - assert (400 <= status_code r < 600) by by apply Hs.
    split; [|split; [|split; [|split]]].
    + split; [intros _; by left | intros _; by exists TypeError].
    + done.
    + intros Hn. contradiction.
    + intros H200. lia.
    + done.
  - assert (~ 400 <= status_code r < 600) by (rewrite <- Hs; congruence).
    split; [|split; [|split; [|split]]].
    + split; [intros Hj; by right | intros [?|?]; [contradiction|done]].
    + intros Hn. contradiction.
    + done.
    + done.
    + done.
Qed.

Lemma C8_witness :
  safe_request (Ok (mkresponse 404 (Ok "{}"%string))) = Raise TypeError /\
  safe_request (Ok (mkresponse 200 (Ok "{}"%string))) = Ok "{}"%string.
Proof.
  split.
  - destruct (C8_safe_request (mkresponse 404 (Ok "{}"%string))) as (_ & H & _).
    apply H. simpl. lia.
  - destruct (C8_safe_request (mkresponse 200 (Ok "{}"%string))) as (_ & _ & _ & H & _).
    apply H; [simpl; lia | reflexivity].
Defined.

(** C8 as stated fails: a 304 response is not 2xx, yet the wrapper returns
    its decoded body. *)
Lemma C8_counterexample :
  ~ (200 <= status_code (mkresponse 304 (Ok "[]"%string)) < 300) /\
  safe_request (Ok (mkresponse 304 (Ok "[]"%string))) = Ok "[]"%string.
Proof. split; [simpl; lia | reflexivity]. Qed.

(** ** The report *)

Lemma length_append (s t : string) :
  String.length (s +:+ t) = (String.length s + String.length t)%nat.
Proof. induction s as [|c s IH]; simpl; [done|]. by rewrite IH. Qed.

Lemma length_string_of_list_ascii (l : list ascii) :
  String.length (string_of_list_ascii l) = length l.
Proof. induction l as [|c l IH]; simpl; [done|]. by rewrite IH. Qed.

Lemma ljust_length w s : String.length (ljust w s) = Nat.max w (String.length s).
Proof.
  unfold ljust. rewrite length_append, length_string_of_list_ascii, length_replicate. lia.
Qed.

Lemma is_digit_of_N n : is_digit (ascii_of_N (48 + n mod 10)) = true.
Proof.
  unfold is_digit. assert (n mod 10 < 10)%N by by apply N.mod_lt.
  generalize dependent (n mod 10)%N. intros m Hm.
  rewrite N_ascii_embedding by lia.
  apply andb_true_iff. split; apply N.leb_le; lia.
Qed.

Lemma digits_aux_digits fuel n acc :
  Forall (fun c => is_digit c = true) acc ->
  Forall (fun c => is_digit c = true) (digits_aux fuel n acc).
Proof.
  revert n acc. induction fuel as [|fuel IH]; intros n acc Hacc; simpl; [done|].
  assert (Forall (fun c => is_digit c = true) (ascii_of_N (48 + n mod 10) :: acc)).
  { constructor; [apply is_digit_of_N | done]. }
  destruct (n <? 10)%N; [done|]. by apply IH.
Qed.

Lemma digits_aux_nonempty fuel n acc : acc <> [] -> digits_aux fuel n acc <> [].
Proof.
  revert n acc. induction fuel as [|fuel IH]; intros n acc Hacc; simpl; [done|].
  destruct (n <? 10)%N; [done|]. by apply IH.
Qed.

Lemma digits_of_N_digits n : Forall (fun c => is_digit c = true) (digits_of_N n).
Proof. by apply digits_aux_digits. Qed.

Lemma digits_of_N_nonempty n : digits_of_N n <> [].
Proof.
  unfold digits_of_N. simpl. destruct (n <? 10)%N; [done|].
  by apply digits_aux_nonempty.
Qed.

Lemma zeros_digits k : Forall (fun c => is_digit c = true) (zeros k).
Proof. unfold zeros. by apply Forall_replicate. Qed.

(** The fixed-point notation: digits before the point, and after it as
    many digits as the exponent is negative. *)
Lemma format_parts_spec d ip fp :
  format_parts d = (ip, fp) ->
  ip <> [] /\
  Forall (fun c => is_digit c = true) ip /\
  Forall (fun c => is_digit c = true) fp /\
  length fp = Z.to_nat (- exp d).
Proof.
  unfold format_parts.
  set (d' := if ((coef d =? 0)%N && (0 <? exp d)) then mk (sign d) 0 0 else d).
  assert (He : Z.to_nat (- exp d') = Z.to_nat (- exp d) /\
               (exp d' < 0 \/ exp d' = 0 \/ (0 < exp d' /\ coef d' <> 0%N))).
  { subst d'. destruct (coef d =? 0)%N eqn:Hc, (0 <? exp d) eqn:Hx; simpl; try lia.
    apply N.eqb_neq in Hc. lia. }
  destruct He as [<- He].
  pose proof (digits_of_N_digits (coef d')) as Hds.
  pose proof (digits_of_N_nonempty (coef d')) as Hne.
  set (ds := digits_of_N (coef d')) in *.
  destruct (exp d' + Z.of_nat (length ds) <? 0) eqn:H1.
  - intros [= <- <-]. repeat split; [done|by repeat constructor| |].
    + apply Forall_app. split; [apply zeros_digits|done].
    + unfold zeros. rewrite length_app, length_replicate. lia.
  - destruct (Z.of_nat (length ds) <? exp d' + Z.of_nat (length ds)) eqn:H2.
    + intros [= <- <-]. repeat split.
      * destruct ds; [done|]. done.
      * apply Forall_app. split; [done|apply zeros_digits].
      * constructor.
      * simpl. lia.
    + intros [= <- <-]. repeat split.
      * by destruct (take _ ds).
      * destruct (take _ ds) eqn:Ht; [by repeat constructor|].
        rewrite <- Ht. by apply Forall_take.
      * by apply Forall_drop.
      * rewrite length_drop. lia.
Qed.

(** ** Ranking *)

Lemma py_ltb_irrefl a : py_ltb a a = false.
Proof. apply DecFacts.ltb_irrefl. Qed.

Lemma py_ltb_trans a b c : py_ltb a b = true -> py_ltb b c = true -> py_ltb a c = true.
Proof. apply DecFacts.ltb_trans. Qed.

Lemma py_ltb_cotrans a b c : py_ltb a c = true -> py_ltb a b = true \/ py_ltb b c = true.
Proof. apply DecFacts.ltb_cotrans. Qed.

Lemma tied_py_numeq k r : tied py_ltb value k r = py_numeq k (value r).
Proof. unfold tied, py_numeq, py_ltb. by rewrite DecFacts.numeq_ltb. Qed.

Lemma symbols_names_spec ex q names :
  (syms ← get_symbols_by_quote_asset ex q; mapR (fun x => getitem x "symbol") syms)
    = Ok names <->
  Forall (fun x : dict => is_Some (x !! "quoteAsset")) ex /\
  Forall (fun x : dict => is_Some (x !! "symbol")) (List.filter (quoted q) ex) /\
  names = quote_symbols ex q.
Proof.
  unfold get_symbols_by_quote_asset, quote_symbols.
  assert (Hf : List.filter
                 (fun x => is_true (q0 ← getitem x "quoteAsset"; Ok (bool_decide (q0 = q)))) ex
               = List.filter (quoted q) ex).
  { apply List.filter_ext. intros x. unfold quoted, getitem.
    destruct (x !! "quoteAsset") as [q0|]; simpl; [|done].
    destruct (bool_decide (q0 = q)) eqn:Hb; symmetry.
    - apply bool_decide_eq_true in Hb as ->. by apply bool_decide_eq_true.
    - apply bool_decide_eq_false in Hb. apply bool_decide_eq_false. congruence. }
  assert (Hm : forall l ns,
             mapR (fun x : dict => getitem x "symbol") l = Ok ns <->
             Forall (fun x : dict => is_Some (x !! "symbol")) l /\
             ns = omap (fun x : dict => x !! "symbol") l).
  { unfold getitem. induction l as [|x l IH]; intros ns; simpl.
    - split; [by intros [= <-] | by intros [_ ->]].
    - destruct (x !! "symbol") as [s0|] eqn:Hx; simpl.
      + destruct (mapR _ l) as [ns'|] eqn:Hl; simpl.
        * destruct (proj1 (IH ns') eq_refl) as [Hall ->].
          split; [intros [= <-]; split; [constructor; eauto|done] | by intros [_ ->]].
        * split; [done|]. intros [Hall _]. apply Forall_cons in Hall as [_ Hall].
          by pose proof (proj2 (IH _) (conj Hall eq_refl)).
      + split; [done|]. intros [Hall _]. apply Forall_cons in Hall as [[? ?] _]. congruence. }
  split.
  - destruct (filterR _ ex) as [syms|] eqn:Hsyms; simpl; [|done].
    apply filterR_Ok_inv in Hsyms as [Hall ->]. rewrite Hf. intros Hn.
    apply Hm in Hn as [Hs ->]. split; [|done].
    eapply Forall_impl; [exact Hall|]. intros x [b Hb]. simpl in Hb.
    unfold getitem in Hb. by destruct (x !! "quoteAsset").
  - intros (Hq & Hs & ->). rewrite filterR_total.
    + simpl. rewrite Hf. by apply Hm.
    + eapply Forall_impl; [exact Hq|]. intros x [q0 Hq0]. simpl.
      unfold getitem. rewrite Hq0. simpl. eauto.
Qed.

Lemma ticker_entry_spec names top_by cast t l :
  ticker_entry names top_by cast t = Ok l <->
  is_Some (t !! "symbol") /\
  if matching names t then exists r, l = [r] /\ ranked top_by cast t r else l = [].
Proof.
  unfold ticker_entry, matching, ranked, getitem.
  destruct (t !! "symbol") as [s|]; simpl.
  2: { split; [done|]. by intros [[? ?] _]. }
  destruct (contains names s); simpl.
  - destruct (t !! top_by) as [f|]; simpl.
    2: { split; [done|]. by intros [_ (r & _ & f & _ & ? & _)]. }
    destruct (cast f) as [v|] eqn:Hv; simpl.
    + split.
      * intros [= <-]. split; [by eexists|].
        exists (mkrow s v None None). split; [done|]. by exists f.
      * intros [_ (r & -> & f' & [= Hs] & [= <-] & Hc & Ht & Hd)].
        destruct r as [s' v' ty de]; simpl in *. congruence.
    + split; [done|].
      intros [_ (r & _ & f' & _ & [= <-] & Hc & _)]. congruence.
  - split; [intros [= <-]; split; [by eexists|done] | by intros [_ ->]].
Qed.

Lemma ticker_loop_spec names top_by cast tickers ll :
  mapR (ticker_entry names top_by cast) tickers = Ok ll ->
  Forall (fun t : dict => is_Some (t !! "symbol")) tickers /\
  Forall2 (ranked top_by cast) (List.filter (matching names) tickers) (concat ll).
Proof.
  revert ll. induction tickers as [|t tickers IH]; intros ll; simpl.
  - intros [= <-]. by split.
  - destruct (ticker_entry names top_by cast t) as [l|] eqn:Ht; simpl; [|done].
    destruct (mapR _ tickers) as [ll'|]; simpl; [|done].
    intros [= <-]. destruct (IH ll' eq_refl) as [Hall Hrows].
    apply ticker_entry_spec in Ht as [Hs Hl]. split; [by constructor|].
    simpl. destruct (matching names t).
    + destruct Hl as (r & -> & Hr). by constructor.
    + by subst l.
Qed.

Lemma ticker_loop_total names top_by cast tickers rows :
  Forall (fun t : dict => is_Some (t !! "symbol")) tickers ->
  Forall2 (ranked top_by cast) (List.filter (matching names) tickers) rows ->
  exists ll, mapR (ticker_entry names top_by cast) tickers = Ok ll /\ concat ll = rows.
Proof.
  intros Hall. revert rows. induction Hall as [|t tickers Ht _ IH]; intros rows; simpl.
  - inversion 1. by exists [].
  - destruct (matching names t) eqn:Hm.
    + inversion 1 as [|? r ? rows' Hr Hrows]; subst.
      destruct (IH rows' Hrows) as (ll & -> & <-).
      assert (ticker_entry names top_by cast t = Ok [r]) as ->.
      { apply ticker_entry_spec. split; [done|]. rewrite Hm. by exists r. }
      simpl. by exists ([r] :: ll).
    + intros Hrows. destruct (IH rows Hrows) as (ll & -> & <-).
      assert (ticker_entry names top_by cast t = Ok []) as ->.
      { apply ticker_entry_spec. split; [done|]. by rewrite Hm. }
      simpl. by exists ([] :: ll).
Qed.

(** The ranking succeeds exactly on well-formed input, and is then the
    head of the sorted entries of the matching tickers. *)
Lemma get_top_spec ex tickers q top top_by cast rev out :
  get_top_symbols_by_quote_asset_by ex tickers q top top_by cast rev = Ok out <->
  Forall (fun x : dict => is_Some (x !! "quoteAsset")) ex /\
  Forall (fun x : dict => is_Some (x !! "symbol")) (List.filter (quoted q) ex) /\
  Forall (fun t : dict => is_Some (t !! "symbol")) tickers /\
  exists rows,
    Forall2 (ranked top_by cast) (List.filter (matching (quote_symbols ex q)) tickers) rows /\
    out = slice_to top (sorted py_ltb value rev rows).
Proof.
  unfold get_top_symbols_by_quote_asset_by.
  rewrite <- (result_bind_assoc (get_symbols_by_quote_asset ex q)
                (fun syms => mapR (fun x => getitem x "symbol") syms)).
  split.
  - destruct (get_symbols_by_quote_asset ex q ≫= _) as [names|] eqn:Hn; simpl; [|done].
    apply symbols_names_spec in Hn as (Hq & Hs & ->).
    destruct (mapR _ tickers) as [ll|] eqn:Hll; simpl; [|done].
    intros [= <-]. apply ticker_loop_spec in Hll as [Ht Hrows].
    repeat split; try done. by exists (concat ll).
  - intros (Hq & Hs & Ht & rows & Hrows & ->).
    rewrite (proj2 (symbols_names_spec ex q _) (conj Hq (conj Hs eq_refl))). simpl.
    destruct (ticker_loop_total _ _ _ _ _ Ht Hrows) as (ll & -> & <-). done.
Qed.

Lemma ranked_functional top_by cast l rows rows' :
  Forall2 (ranked top_by cast) l rows -> Forall2 (ranked top_by cast) l rows' ->
  rows = rows'.
Proof.
  intros H. revert rows'. induction H as [|t r l rows Hr _ IH]; intros rows'.
  - by inversion 1.
  - inversion 1 as [|? r' ? rows'' Hr' Hrows']; subst. f_equal; [|by apply IH].
    destruct Hr as (f & Hs & Hf & Hv & Ht & Hd), Hr' as (f' & Hs' & Hf' & Hv' & Ht' & Hd').
    destruct r, r'; simpl in *. congruence.
Qed.

(** C3: the ranking returns the entries of the matching tickers sorted
    descending by the cast value of the chosen field, equal values in
    ticker order, cut to [top]: its length is the smaller of [top] and the
    number of matching tickers, and what is left out ranks no higher.  It
    is a function of its input. *)
Theorem C3_rank_top_symbols (ex tickers : list dict) (q : string) (top : Z)
    (top_by : string) (cast : string -> result pynum) :
  0 <= top ->
  (forall out,
     get_top_symbols_by_quote_asset_by ex tickers q top top_by cast true = Ok out <->
     Forall (fun x : dict => is_Some (x !! "quoteAsset")) ex /\
     Forall (fun x : dict => is_Some (x !! "symbol")) (List.filter (quoted q) ex) /\
     Forall (fun t : dict => is_Some (t !! "symbol")) tickers /\
     exists rows,
       Forall2 (ranked top_by cast) (List.filter (matching (quote_symbols ex q)) tickers) rows /\
       out = take (Z.to_nat top) (sorted py_ltb value true rows)) /\
  (forall out rows,
     get_top_symbols_by_quote_asset_by ex tickers q top top_by cast true = Ok out ->
     Forall2 (ranked top_by cast) (List.filter (matching (quote_symbols ex q)) tickers) rows ->
     length out =
       Nat.min (Z.to_nat top) (length (List.filter (matching (quote_symbols ex q)) tickers)) /\
     StronglySorted (descending py_ltb value) out /\
     (forall k, List.filter (fun r => py_numeq k (value r)) out
                  `prefix_of` List.filter (fun r => py_numeq k (value r)) rows) /\
     (exists rest, out ++ rest ≡ₚ rows /\
                   forall a b, a ∈ out -> b ∈ rest -> descending py_ltb value a b)) /\
  (forall out1 out2,
     get_top_symbols_by_quote_asset_by ex tickers q top top_by cast true = Ok out1 ->
     get_top_symbols_by_quote_asset_by ex tickers q top top_by cast true = Ok out2 ->
     out1 = out2).
Proof.
  intros Htop.
  assert (Hslice : forall l : list row, slice_to top l = take (Z.to_nat top) l).
  { intros l. unfold slice_to. by assert ((top <? 0) = false) as -> by lia. }
  split; [|split].
  - intros out. rewrite get_top_spec.
    by setoid_rewrite Hslice.
  - intros out rows Hout Hrows.
    apply get_top_spec in Hout as (_ & _ & _ & rows' & Hrows' & ->).
    rewrite (ranked_functional _ _ _ _ _ Hrows' Hrows), Hslice.
    destruct (sorted_reverse_take py_ltb value py_ltb_irrefl py_ltb_trans py_ltb_cotrans
                (Z.to_nat top) rows) as (Hlen & Hsorted & Hstable & Htopn).
    rewrite (Forall2_length _ _ _ Hrows).
    repeat split; try done.
    intros k. specialize (Hstable k).
    by rewrite !(List.filter_ext _ _ (tied_py_numeq k)) in Hstable.
  - congruence.
Qed.

Lemma C3_witness :
  get_top_symbols_by_quote_asset_by
    [exchange_symbol "AUSDT" "USDT"; exchange_symbol "BUSDT" "USDT";
     exchange_symbol "CUSDT" "USDT"; exchange_symbol "ABTC" "BTC"]
    [ticker "AUSDT" "100"; ticker "ABTC" "1000"; ticker "BUSDT" "50"; ticker "CUSDT" "75"]
    "USDT" 2 "volume" Decimal_cast true
  = Ok [mkrow "AUSDT" (D "100") None None; mkrow "CUSDT" (D "75") None None].
Proof.
  assert (H2 : 0 <= 2) by lia.
  destruct (C3_rank_top_symbols
    [exchange_symbol "AUSDT" "USDT"; exchange_symbol "BUSDT" "USDT";
     exchange_symbol "CUSDT" "USDT"; exchange_symbol "ABTC" "BTC"]
    [ticker "AUSDT" "100"; ticker "ABTC" "1000"; ticker "BUSDT" "50"; ticker "CUSDT" "75"]
    "USDT" 2 "volume" Decimal_cast H2) as [Hiff _].
  apply Hiff. split; [|split; [|split]].
  - repeat constructor; eexists; vm_compute; reflexivity.
  - vm_compute List.filter. repeat constructor; eexists; vm_compute; reflexivity.
  - repeat constructor; eexists; vm_compute; reflexivity.
  - exists [mkrow "AUSDT" (D "100") None None; mkrow "BUSDT" (D "50") None None;
            mkrow "CUSDT" (D "75") None None].
    split; [|vm_compute; reflexivity].
    vm_compute List.filter.
    repeat constructor.
    + exists "100"%string. repeat split; vm_compute; reflexivity.
    + exists "50"%string. repeat split; vm_compute; reflexivity.
    + exists "75"%string. repeat split; vm_compute; reflexivity.
Defined.

(** C5: when the ranking field is absent from a ticker that passes the
    quote-asset filter, the whole call raises: no entry is skipped and no
    partial result is returned. *)
Theorem C5_missing_field_raises (ex tickers : list dict) (q : string) (top : Z)
    (top_by : string) (cast : string -> result pynum) (rev : bool) (t : dict) :
  t ∈ tickers ->
  matching (quote_symbols ex q) t = true ->
  t !! top_by = None ->
  raises (get_top_symbols_by_quote_asset_by ex tickers q top top_by cast rev).
Proof.
  intros Hin Hm Hnone.
  destruct (get_top_symbols_by_quote_asset_by ex tickers q top top_by cast rev)
    as [out|e] eqn:Hout; [|by exists e].
  apply get_top_spec in Hout as (_ & _ & _ & rows & Hrows & _).
  assert (Hf : t ∈ List.filter (matching (quote_symbols ex q)) tickers).
  { apply list_elem_of_In, List.filter_In. split; [by apply list_elem_of_In|done]. }
  apply list_elem_of_lookup in Hf as [i Hi].
  destruct (Forall2_lookup_l _ _ _ _ _ Hrows Hi) as (r & _ & f & _ & Hf & _).
  congruence.
Qed.

Lemma C5_witness :
  raises (get_top_symbols_by_quote_asset_by
            [exchange_symbol "AUSDT" "USDT"; exchange_symbol "BUSDT" "USDT"]
            [ticker "AUSDT" "100"; {[ "symbol" := "BUSDT" ]}]
            "USDT" 5 "volume" Decimal_cast true).
Proof.
  apply (C5_missing_field_raises _ _ _ _ _ _ _ {[ "symbol" := "BUSDT" ]}).
  - apply list_elem_of_In. right. left. reflexivity.
  - vm_compute. reflexivity.
  - vm_compute. reflexivity.
Defined.

(** ** Notional value *)

Section SortedAgain.
Context {A K : Type} (lt : K -> K -> bool) (key : A -> K).

Lemma stable_sort_id l :
  StronglySorted (ascending lt key) l -> stable_sort lt key l = l.
Proof.
  induction 1 as [|x l Hl IH Hx]; simpl; [done|].
  rewrite IH. destruct Hx as [|y l Hxy _]; simpl; [done|].
  unfold ascending in Hxy. by rewrite Hxy.
Qed.

Lemma sorted_reverse_id l :
  StronglySorted (descending lt key) l -> sorted lt key true l = l.
Proof.
  intros Hl. unfold sorted. rewrite stable_sort_id; [apply rev_involutive|].
  apply (StronglySorted_rev (descending lt key)) in Hl. exact Hl.
Qed.
End SortedAgain.

Lemma slice_to_200 {A} (l : list A) : slice_to 200 l = take 200 l.
Proof. done. Qed.

Lemma sort_orders_by_price_idemp x :
  sort_orders_by_price (sort_orders_by_price x) = sort_orders_by_price x.
Proof.
  unfold sort_orders_by_price. rewrite !slice_to_200.
  rewrite sorted_reverse_id; [by rewrite take_take|].
  by destruct (sorted_reverse_take Dec.ltb fst DecFacts.ltb_irrefl DecFacts.ltb_trans
                 DecFacts.ltb_cotrans 200 x) as (_ & Hs & _).
Qed.

(** Both entries of a symbol always carry the same value. *)
Lemma notional_value_of_spec sym ob out :
  notional_value_of sym ob = Ok out <->
  exists A v,
    mapR cast_orders_tuple_to_decimal (asks ob) = Ok A /\
    count_notional_value (sort_orders_by_price A) = Ok v /\
    out = [mkrow sym v (Some "bid") None; mkrow sym v (Some "ask") None].
Proof.
  unfold notional_value_of.
  destruct (mapR cast_orders_tuple_to_decimal (asks ob)) as [A|] eqn:HA; simpl.
  2: { split; [done|]. by intros (A & v & ? & _). }
  rewrite sort_orders_by_price_idemp.
  destruct (count_notional_value (sort_orders_by_price A)) as [v|] eqn:Hv; simpl.
  - split.
    + intros [= <-]. by exists A, v.
    + intros (A' & v' & [= <-] & Hv' & ->). congruence.
  - split; [done|]. intros (A' & v' & [= <-] & Hv' & _). congruence.
Qed.





(** The aggregator is the loop body, symbol by symbol: two entries each,
    in the order of the symbols. *)
Lemma get_top_total_notional_value_spec get_order_book symbols out :
  get_top_total_notional_value_by_symbols get_order_book symbols = Ok out <->
  exists ll,
    Forall2 (fun s rows => exists ob, get_order_book s = Ok ob /\
                                      notional_value_of s ob = Ok rows) symbols ll /\
    out = concat ll.
Proof.
  unfold get_top_total_notional_value_by_symbols.
  destruct (mapR _ symbols) as [ll|] eqn:Hll; simpl.
  - apply mapR_Ok_Forall2 in Hll. split.
    + intros [= <-]. exists ll. split; [|done].
      eapply Forall2_impl; [exact Hll|]. intros s rows Hs. simpl in Hs.
      destruct (get_order_book s) as [ob|]; [|done]. by exists ob.
    + intros (ll' & Hll' & ->). f_equal. f_equal.
      revert ll' Hll'. induction Hll as [|s rows symbols ll Hs _ IH]; intros ll' Hll'.
      * by inversion Hll'.
      * inversion Hll' as [|? rows' ? ll'' (ob & Hob & Hrows) Hrest]; subst.
        simpl in Hs. rewrite Hob in Hs. simpl in Hs.
        f_equal; [congruence | by apply IH].
  - split; [done|]. intros (ll & Hll' & _). exfalso.
    assert (mapR (fun symbol => ob ← get_order_book symbol; notional_value_of symbol ob)
              symbols = Ok ll) as Hok.
    { apply mapR_Ok_Forall2. eapply Forall2_impl; [exact Hll'|].
      intros s rows (ob & -> & Hrows). done. }
    congruence.
Qed.

(** C1 (the defect): at an order book whose bid list and ask list have
    different product-sums (1 and 2) the bid entry and the ask entry come
    out with the same value, the one of the asks. *)
Theorem C1_bids_read_from_asks :
  get_top_total_notional_value_by_symbols
    (fun _ => Ok (mkbook [("2", "1")] [("1", "1")])) ["S"]
    = Ok [mkrow "S" (D "2") (Some "bid") None; mkrow "S" (D "2") (Some "ask") None] /\
  count_notional_value [(to_dec (D "1"), to_dec (D "1"))] = Ok (D "1") /\
  count_notional_value [(to_dec (D "2"), to_dec (D "1"))] = Ok (D "2") /\
  py_numeq (D "1") (D "2") = false.
Proof. repeat split; vm_compute; reflexivity. Qed.



(** * Further properties of the code *)

(** ** Decimal arithmetic *)

Lemma fix_sign d r : fix_ d = Ok r -> sign r = sign d.
Proof.
  unfold fix_. repeat case_match; intros [= <-]; done.
Qed.

(** Rounding does not look at the sign. *)
Lemma fix_resign s d :
  fix_ (mk s (coef d) (exp d)) =
    match fix_ d with
    | Ok r => Ok (mk s (coef r) (exp r))
    | Raise e => Raise e
    end.
Proof.
  unfold fix_. simpl. repeat case_match; simplify_eq; done.
Qed.

Lemma scaled_copy_negate e d : scaled e (copy_negate d) = - scaled e d.
Proof. unfold scaled, copy_negate. simpl. destruct (sign d); simpl; lia. Qed.

Lemma exact_sub_self v : exact_sub v v = mk false 0 (exp v).
Proof.
  unfold exact_sub, exact_add. cbn [exp copy_negate].
  rewrite scaled_copy_negate, Z.add_opp_diag_r. simpl.
  rewrite Z.min_id. by destruct (sign v).
Qed.

Lemma fix_zero s e : exists e', fix_ (mk s 0 e) = Ok (mk s 0 e').
Proof. unfold fix_. simpl. eauto. Qed.

Lemma exact_sub_swap a b :
  coef (exact_sub b a) = coef (exact_sub a b) /\ exp (exact_sub b a) = exp (exact_sub a b).
Proof.
  unfold exact_sub, exact_add. cbn [exp copy_negate].
  rewrite !scaled_copy_negate, (Z.min_comm (exp b)).
  set (e := Z.min (exp a) (exp b)).
  set (x := scaled e a). set (y := scaled e b).
  destruct (x + - y =? 0) eqn:H1, (y + - x =? 0) eqn:H2; simpl; lia.
Qed.

Lemma abs_resign s d : Dec.abs (mk s (coef d) (exp d)) = Dec.abs d.
Proof. done. Qed.

(** *** The value of a difference *)

Lemma ndigits_aux_le fuel n k :
  1 <= k -> Z.of_N n < 10 ^ k -> ndigits_aux fuel n <= k.
Proof.
  revert n k. induction fuel as [|fuel IH]; intros n k Hk Hn; simpl; [done|].
  destruct (n <? 10)%N eqn:Hlt; [done|]. apply N.ltb_ge in Hlt.
  assert (2 <= k) as Hk2.
  { destruct (Z.eq_dec k 1) as [->|]; [|lia]. change (10 ^ 1) with 10 in Hn. lia. }
  assert (ndigits_aux fuel (n / 10) <= k - 1); [|lia].
  apply IH; [lia|].
  rewrite N2Z.inj_div. change (Z.of_N 10) with 10.
  apply Z.div_lt_upper_bound; [lia|].
  replace k with (Z.succ (k - 1)) in Hn by lia.
  rewrite Z.pow_succ_r in Hn by lia. done.
Qed.

Lemma pow10_Z k : 0 <= k -> Z.of_N (pow10 k) = 10 ^ k.
Proof.
  intros Hk. unfold pow10. rewrite N2Z.inj_pow, Z2N.id by done. done.
Qed.

(** [scaled] is the value in units of [10^e]. *)
Lemma scaled_value e d :
  e <= exp d ->
  scaled e d = (if sign d then -1 else 1) * Z.of_N (coef d) * 10 ^ (exp d - e).
Proof.
  intros He. unfold scaled. rewrite N2Z.inj_mul, pow10_Z by lia.
  destruct (sign d); lia.
Qed.

Lemma exact_sub_value a b :
  coef (exact_sub a b) =
    Z.abs_N (scaled (Z.min (exp a) (exp b)) a - scaled (Z.min (exp a) (exp b)) b) /\
  exp (exact_sub a b) = Z.min (exp a) (exp b).
Proof.
  unfold exact_sub, exact_add. cbn [exp copy_negate].
  rewrite scaled_copy_negate.
  set (x := scaled _ a). set (y := scaled _ b).
  replace (x + - y) with (x - y) by lia.
  destruct (x - y =? 0) eqn:H0; simpl; [|done].
  apply Z.eqb_eq in H0. by rewrite H0.
Qed.

(** The delta of two Decimals whose exact difference has at most 28
    digits, at an exponent within the limits: that difference, without a
    sign. *)
Lemma abs_delta_value c p a b :
  value c = PyDecimal a -> value p = PyDecimal b ->
  let e := Z.min (exp a) (exp b) in
  let za := (if sign a then -1 else 1) * Z.of_N (coef a) * 10 ^ (exp a - e) in
  let zb := (if sign b then -1 else 1) * Z.of_N (coef b) * 10 ^ (exp b - e) in
  Z.abs (za - zb) < 10 ^ 28 -> Etiny <= e <= Etop ->
  abs_delta c p = Ok (PyDecimal (mk false (Z.abs_N (za - zb)) e)).
Proof.
  intros Hc Hp e za zb Hlt He.
  destruct (exact_sub_value a b) as [Hcoef Hexp]. fold e in Hcoef, Hexp.
  rewrite !scaled_value in Hcoef by (subst e; lia). fold za zb in Hcoef.
  rewrite (abs_delta_exact c p a b Hc Hp).
  - unfold copy_abs. by rewrite Hcoef, Hexp.
  - split; [|by rewrite Hexp].
    rewrite Hcoef. unfold ndigits, prec. apply ndigits_aux_le; [done|].
    by rewrite N2Z.inj_abs_N.
Qed.

(** C2 (amended): the delta computation pairs the current entry at index
    [i] with the previous entry at the same index [i] and sets
    [delta = abs(current[i].value - previous[i].value)]; the symbols of the
    previous entries are never consulted.  Whenever the previous list is
    long enough and the subtractions stay in the exponent range the loop
    completes with one entry per current entry.  A delta is never
    negative, and it is the absolute difference of the two values, exactly,
    whenever that difference has at most 28 digits at an exponent within
    the limits of the context. *)
Theorem C2_delta_paired_by_index (cur prev : list row) (g : gauges) :
  (length cur <= length prev)%nat ->
  deltas_defined cur prev ->
  (exists out g', delta_loop 0 cur prev g = Ok (out, g') /\
     length out = length cur /\
     forall i c, cur !! i = Some c ->
       exists p d, prev !! i = Some p /\ abs_delta c p = Ok d /\
         out !! i = Some (mkrow (symbol c) (value c) (type c) (Some d))) /\
  (forall prev', value <$> prev' = value <$> prev ->
     delta_loop 0 cur prev' g = delta_loop 0 cur prev g) /\
  (forall c p d, abs_delta c p = Ok d ->
     match d with
     | PyInt z => 0 <= z
     | PyDecimal x => sign x = false
     end) /\
  (forall c p a b,
     value c = PyDecimal a -> value p = PyDecimal b ->
     let e := Z.min (exp a) (exp b) in
     let za := (if sign a then -1 else 1) * Z.of_N (coef a) * 10 ^ (exp a - e) in
     let zb := (if sign b then -1 else 1) * Z.of_N (coef b) * 10 ^ (exp b - e) in
     Z.abs (za - zb) < 10 ^ 28 -> Etiny <= e <= Etop ->
     abs_delta c p = Ok (PyDecimal (mk false (Z.abs_N (za - zb)) e))).
Proof.
  intros Hlen Har. split; [|split; [|split]].
  - destruct (delta_loop_total cur prev g Hlen Har) as (out & g' & Hout).
    exists out, g'. split; [done|]. by apply (delta_loop_Ok cur prev g out g').
  - intros prev'. apply delta_loop_values.
  - intros c p d. unfold abs_delta.
    destruct (py_sub (value c) (value p)) as [[z|x]|] eqn:Hs; cbn; [| |done].
    + intros [= <-]. lia.
    + unfold Dec.abs. destruct (fix_ (copy_abs x)) as [r|] eqn:Hr; cbn; [|done].
      intros [= <-]. by apply fix_sign in Hr.
  - apply abs_delta_value.
Qed.

Lemma C2_witness :
  (exists out g',
     delta_loop 0 [spread "A" "1.5"; spread "B" "2.5"]
                  [spread "A" "1.0"; spread "B" "2.0"] no_gauges = Ok (out, g') /\
     delta <$> out = [Some (D "0.5"); Some (D "0.5")]) /\
  abs_delta (spread "A" "1.0") (spread "A" "2.5") = Ok (D "1.5").
Proof.
  assert (Hlen : (length [spread "A" "1.5"; spread "B" "2.5"] <=
                  length [spread "A" "1.0"; spread "B" "2.0"])%nat) by (simpl; lia).
  assert (Har : deltas_defined [spread "A" "1.5"; spread "B" "2.5"]
                               [spread "A" "1.0"; spread "B" "2.0"]).
  { intros [|[|i]] c p; simpl; intros [= <-] [= <-]; eexists; vm_compute; reflexivity. }
  destruct (C2_delta_paired_by_index _ _ no_gauges Hlen Har)
    as ((out & g' & Hout & Hl & Hi) & _ & _ & Hval).
  split.
  - exists out, g'. split; [exact Hout|].
    destruct (Hi 0%nat _ eq_refl) as (p0 & d0 & [= <-] & Hd0 & Ho0).
    destruct (Hi 1%nat _ eq_refl) as (p1 & d1 & [= <-] & Hd1 & Ho1).
    vm_compute in Hd0, Hd1. injection Hd0 as <-. injection Hd1 as <-.
    destruct out as [|a [|b [|? ?]]]; simpl in Hl; try discriminate.
    simpl in Ho0, Ho1. injection Ho0 as ->. injection Ho1 as ->.
    vm_compute. reflexivity.
  - rewrite (Hval (spread "A" "1.0") (spread "A" "2.5")
               (mk false 10 (-1)) (mk false 25 (-1)) eq_refl eq_refl).
    + vm_compute. reflexivity.
    + vm_compute. reflexivity.
    + vm_compute. split; discriminate.
Defined.

(** C2 as stated fails: the difference of [1E+27] and [0.05] has 29
    digits and is rounded to 28, so the delta is [1E+27] and not
    [999999999999999999999999999.95]. *)
Lemma C2_counterexample :
  exists d,
    abs_delta (spread "A" "1E+27") (spread "A" "0.05") = Ok (PyDecimal d) /\
    Z.of_N (coef d) * 10 ^ (exp d - -2) <> Z.abs (1 * 10 ^ 29 - 5 * 10 ^ 0).
Proof.
  exists (mk false 1000000000000000000000000000 0).
  split; [vm_compute; reflexivity|]. vm_compute. discriminate.
Qed.

(** ** The polling loop, continued *)

Lemma sub_self v : exists e, Dec.sub v v = Ok (mk false 0 e).
Proof. unfold Dec.sub. rewrite exact_sub_self. apply fix_zero. Qed.

Lemma abs_delta_same c p v :
  value c = PyDecimal v -> value p = PyDecimal v ->
  exists e, abs_delta c p = Ok (PyDecimal (mk false 0 e)).
Proof.
  intros Hc Hp. unfold abs_delta. rewrite Hc, Hp. cbn [py_sub to_dec].
  destruct (sub_self v) as [e ->].
  destruct (fix_zero false e) as [e' He']. exists e'.
  cbn [fmap result_fmap mbind result_bind py_abs].
  unfold Dec.abs, copy_abs. cbn [coef exp]. by rewrite He'.
Qed.

Lemma sub_swap a b :
  match Dec.sub a b, Dec.sub b a with
  | Ok x, Ok y => Dec.abs x = Dec.abs y
  | Raise e, Raise e' => e = e'
  | _, _ => False
  end.
Proof.
  unfold Dec.sub.
  destruct (exact_sub_swap a b) as [Hc He].
  pose proof (fix_resign (sign (exact_sub b a)) (exact_sub a b)) as H.
  rewrite <- Hc, <- He in H.
  replace (mk (sign (exact_sub b a)) (coef (exact_sub b a)) (exp (exact_sub b a)))
    with (exact_sub b a) in H by by destruct (exact_sub b a).
  rewrite H. destruct (fix_ (exact_sub a b)) as [r|e]; [|done].
  symmetry. apply abs_resign.
Qed.

(** The delta is the same whichever of the two polls is taken as the
    current one: [|a - b| = |b - a|], rounding and overflow included. *)
Theorem abs_delta_sym (c p : row) : abs_delta c p = abs_delta p c.
Proof.
  unfold abs_delta.
  destruct (value c) as [x|a], (value p) as [y|b]; cbn [py_sub to_dec].
  - cbn. do 2 f_equal. lia.
  - pose proof (sub_swap (to_dec (PyInt x)) b) as H. cbn [to_dec] in H.
    destruct (Dec.sub _ b) as [r|e], (Dec.sub b _) as [r'|e']; cbn [fmap result_fmap mbind result_bind py_abs];
      first [by rewrite H | done | by subst].
  - pose proof (sub_swap a (to_dec (PyInt y))) as H. cbn [to_dec] in H.
    destruct (Dec.sub a _) as [r|e], (Dec.sub _ a) as [r'|e']; cbn [fmap result_fmap mbind result_bind py_abs];
      first [by rewrite H | done | by subst].
  - pose proof (sub_swap a b) as H.
    destruct (Dec.sub a b) as [r|e], (Dec.sub b a) as [r'|e']; cbn [fmap result_fmap mbind result_bind py_abs];
      first [by rewrite H | done | by subst].
Qed.

(** A delta is never negative. *)
Theorem abs_delta_nonneg (c p : row) (d : pynum) :
  abs_delta c p = Ok d ->
  match d with
  | PyInt z => 0 <= z
  | PyDecimal x => sign x = false
  end.
Proof.
  unfold abs_delta.
  destruct (py_sub (value c) (value p)) as [[z|x]|] eqn:Hs; cbn; [| |done].
  - intros [= <-]. lia.
  - unfold Dec.abs. destruct (fix_ (copy_abs x)) as [r|] eqn:Hr; cbn; [|done].
    intros [= <-]. by apply fix_sign in Hr.
Qed.

Lemma abs_delta_nonneg_witness :
  abs_delta (spread "A" "1.0") (spread "A" "2.5") = Ok (D "1.5") /\
  sign (to_dec (D "1.5")) = false.
Proof.
  split; [vm_compute; reflexivity|].
  apply (abs_delta_nonneg (spread "A" "1.0") (spread "A" "2.5") (D "1.5")).
  vm_compute. reflexivity.
Defined.

(** The gauges after a completed loop: a label that is not a current
    symbol keeps the value it had (a symbol that left the list goes
    stale, it is not reset); a current symbol shows the spread and the
    delta of one of its entries. *)
Theorem delta_loop_gauges (cur prev : list row) (g g' : gauges) (out : list row) :
  delta_loop 0 cur prev g = Ok (out, g') ->
  (forall s, s ∉ symbol <$> cur ->
     prom_spread g' !! s = prom_spread g !! s /\
     spread_delta g' !! s = spread_delta g !! s) /\
  (forall s, s ∈ symbol <$> cur ->
     exists r, r ∈ out /\ symbol r = s /\
               prom_spread g' !! s = Some (value r) /\
               spread_delta g' !! s = delta r).
Proof.
  revert prev g g' out. induction cur as [|n cur IH]; intros prev g g' out.
  - simpl. intros [= <- <-]. split; [done|]. intros s Hs. by apply elem_of_nil in Hs.
  - destruct prev as [|p prev]; [done|].
    rewrite delta_loop_cons.
    destruct (abs_delta n p) as [d|] eqn:Hd; simpl; [|done].
    destruct (delta_loop 0 cur prev _) as [[out1 g1]|] eqn:Hl; simpl; [|done].
    intros [= <- <-]. destruct (IH _ _ _ _ Hl) as [Hout Hin]. simpl in *.
    split.
    + intros s Hs. apply not_elem_of_cons in Hs as [Hne Hs].
      destruct (Hout s Hs) as [-> ->].
      by rewrite !lookup_insert_ne.
    + intros s Hs.
      destruct (decide (s ∈ symbol <$> cur)) as [Hc|Hc].
      * destruct (Hin s Hc) as (r & Hr & Hsym & Hv & Hdl).
        exists r. split; [by right|done].
      * apply elem_of_cons in Hs as [->|Hs]; [|done].
        destruct (Hout _ Hc) as [-> ->].
        rewrite !lookup_insert_eq.
        exists (mkrow (symbol n) (value n) (type n) (Some d)). split; [by left|done].
Qed.

Lemma delta_loop_gauges_witness :
  exists out g',
    delta_loop 0 [spread "A" "1.5"] [spread "A" "1.0"]
      (mkgauges {[ "B" := D "7" ]} ∅) = Ok (out, g') /\
    prom_spread g' !! "B" = Some (D "7") /\
    prom_spread g' !! "A" = Some (D "1.5").
Proof.
  assert (H : delta_loop 0 [spread "A" "1.5"] [spread "A" "1.0"]
                (mkgauges {[ "B" := D "7" ]} ∅)
              = Ok ([mkrow "A" (D "1.5") None (Some (D "0.5"))],
                    mkgauges (<["A" := D "1.5"]> {[ "B" := D "7" ]})
                             (<["A" := D "0.5"]> ∅)))
    by (vm_compute; reflexivity).
  eexists _, _. split; [exact H|].
  destruct (delta_loop_gauges _ _ _ _ _ H) as [Hout Hin]. split.
  - destruct (Hout "B") as [-> _]; [|reflexivity].
    simpl. intros Hb. apply list_elem_of_singleton in Hb. discriminate.
  - destruct (Hin "A") as (r & Hr & _ & -> & _); [simpl; by left|].
    apply list_elem_of_singleton in Hr as ->. reflexivity.
Defined.

Lemma delta_loop_deltas cur prev g out g' :
  delta_loop 0 cur prev g = Ok (out, g') ->
  Forall (fun r => is_Some (delta r)) out /\
  (fun r => (symbol r, value r)) <$> out = (fun r => (symbol r, value r)) <$> cur.
Proof.
  revert prev g g' out. induction cur as [|n cur IH]; intros prev g g' out.
  - simpl. by intros [= <- <-].
  - destruct prev as [|p prev]; [done|].
    rewrite delta_loop_cons.
    destruct (abs_delta n p) as [d|] eqn:Hd; simpl; [|done].
    destruct (delta_loop 0 cur prev _) as [[out1 g1]|] eqn:Hl; simpl; [|done].
    intros [= <- <-]. destruct (IH _ _ _ _ Hl) as [Hall Heq].
    split; [constructor; [by eexists|done]|]. rewrite !fmap_cons. simpl. by f_equal.
Qed.

Lemma float_of_int_exact z : Z.abs z < 2 ^ 53 -> float_of_int z = Ok z.
Proof.
  intros Hz. unfold float_of_int.
  assert (Z.log2 (Z.abs z) < 53) as Hlog.
  { destruct (Z.eq_dec (Z.abs z) 0) as [->|Hne]; [done|].
    apply Z.log2_lt_pow2; lia. }
  assert ((Z.log2 (Z.abs z) + 1 - 53 <=? 0) = true) as -> by (apply Z.leb_le; lia).
  done.
Qed.

Lemma py_format_f_exact v : exact_float v -> exists s, py_format_f v = Ok s.
Proof.
  destruct v as [z|d]; simpl; intros Hv; [|by eexists].
  rewrite float_of_int_exact by done. by eexists.
Qed.

Lemma print_with_delta rows notional :
  Forall (fun r => exact_float (value r) /\
                   exists d, delta r = Some d /\ exact_float d) rows ->
  exists lines, print_formatted_data rows notional true = Ok lines /\
                length lines = length rows.
Proof.
  unfold print_formatted_data. induction 1 as [|r rows (Hv & d & Hd & Hx) _ IH].
  - by exists [].
  - destruct IH as (lines & Hl & Hlen). cbn [mapR]. rewrite Hl.
    unfold format_line. rewrite Hd.
    destruct (py_format_f_exact _ Hv) as [sv ->].
    destruct (py_format_f_exact _ Hx) as [sd ->].
    cbn [mbind result_bind].
    eexists. split; [done|]. simpl. by rewrite Hlen.
Qed.

Lemma get_price_spread_decimal symbols book new :
  get_price_spread_by_symbols symbols book = Ok new ->
  Forall (fun r => exists v, value r = PyDecimal v) new.
Proof.
  intros Hnew. apply get_price_spread_spec in Hnew as [_ Hnew].
  induction Hnew as [|x o l out Hxo _ IH]; constructor; [|done].
  destruct Hxo as (a & b & ask & bid & v & _ & _ & _ & _ & _ & _ & -> & _).
  by exists v.
Qed.

(** The delta against a Decimal is a Decimal. *)
Lemma abs_delta_decimal c p a d :
  value c = PyDecimal a -> abs_delta c p = Ok d -> exists x, d = PyDecimal x.
Proof.
  intros Hc. unfold abs_delta. rewrite Hc.
  assert (py_sub (PyDecimal a) (value p) = PyDecimal <$> Dec.sub a (to_dec (value p))) as ->
    by by destruct (value p).
  destruct (Dec.sub a _) as [r|]; cbn; [|done].
  destruct (Dec.abs r) as [x|]; cbn; [|done].
  intros [= <-]. by exists x.
Qed.

Lemma delta_loop_decimal cur prev g out g' :
  Forall (fun r => exists v, value r = PyDecimal v) cur ->
  delta_loop 0 cur prev g = Ok (out, g') ->
  Forall (fun r => exact_float (value r) /\
                   exists d, delta r = Some d /\ exact_float d) out.
Proof.
  intros Hdec. revert prev g g' out.
  induction Hdec as [|n cur [v Hn] _ IH]; intros prev g g' out.
  - simpl. by intros [= <- <-].
  - destruct prev as [|p prev]; [done|].
    rewrite delta_loop_cons.
    destruct (abs_delta n p) as [d|] eqn:Hd; simpl; [|done].
    destruct (delta_loop 0 cur prev _) as [[out1 g1]|] eqn:Hl; simpl; [|done].
    intros [= <- <-]. constructor; [|by apply (IH _ _ _ _ Hl)].
    simpl. rewrite Hn. split; [done|].
    destruct (abs_delta_decimal _ _ _ _ Hn Hd) as [x ->]. by exists (PyDecimal x).
Qed.

Lemma poll_cycle_completes symbols book prev g new new' g' :
  get_price_spread_by_symbols symbols book = Ok new ->
  delta_loop 0 new prev g = Ok (new', g') ->
  exists lines,
    poll_cycle symbols book prev g = Ok (new', g', lines) /\
    length lines = length new'.
Proof.
  intros Hnew Hloop. unfold poll_cycle. rewrite Hnew. simpl. rewrite Hloop. simpl.
  pose proof (delta_loop_decimal _ _ _ _ _ (get_price_spread_decimal _ _ _ Hnew) Hloop)
    as Hall.
  destruct (print_with_delta new' false Hall) as (lines & -> & Hlen).
  by exists lines.
Qed.

(** A cycle that gets through the delta loop always reports: every entry
    then carries a delta, so the spread-and-delta format cannot fail.  The
    retained list keeps the symbols and values of the fetched one, and
    the report has one line per entry. *)
Theorem poll_cycle_reports symbols book prev g new new' g' :
  get_price_spread_by_symbols symbols book = Ok new ->
  delta_loop 0 new prev g = Ok (new', g') ->
  exists lines,
    poll_cycle symbols book prev g = Ok (new', g', lines) /\
    length lines = length new /\
    Forall (fun r => is_Some (delta r)) new' /\
    (fun r => (symbol r, value r)) <$> new' = (fun r => (symbol r, value r)) <$> new.
Proof.
  intros Hnew Hloop.
  destruct (poll_cycle_completes _ _ _ _ _ _ _ Hnew Hloop) as (lines & Hc & Hlen).
  destruct (delta_loop_deltas _ _ _ _ _ Hloop) as [Hall Heq].
  exists lines. repeat split; try done.
  rewrite Hlen. rewrite <- (length_fmap (fun r => (symbol r, value r)) new'), Heq.
  apply length_fmap.
Qed.

Lemma poll_cycle_reports_witness :
  exists lines,
    poll_cycle ["A"] [book_ticker_record "A" "2.5" "1.0"] [spread "A" "1.0"] no_gauges
    = Ok ([mkrow "A" (D "1.5") None (Some (D "0.5"))],
          mkgauges {[ "A" := D "1.5" ]} {[ "A" := D "0.5" ]}, lines) /\
    length lines = 1%nat.
Proof.
  destruct (poll_cycle_reports ["A"] [book_ticker_record "A" "2.5" "1.0"]
              [spread "A" "1.0"] no_gauges [spread "A" "1.5"]
              [mkrow "A" (D "1.5") None (Some (D "0.5"))]
              (mkgauges {[ "A" := D "1.5" ]} {[ "A" := D "0.5" ]}))
    as (lines & H & Hlen & _).
  - vm_compute. reflexivity.
  - vm_compute. reflexivity.
  - exists lines. split; [exact H|exact Hlen].
Defined.

Lemma poll_cycle_zero_deltas symbols book prev g new :
  get_price_spread_by_symbols symbols book = Ok new ->
  value <$> prev = value <$> new ->
  exists new' g' lines,
    poll_cycle symbols book prev g = Ok (new', g', lines) /\
    Forall (fun r => exists e, delta r = Some (PyDecimal (mk false 0 e))) new'.
Proof.
  intros Hnew Hv.
  pose proof (get_price_spread_decimal _ _ _ Hnew) as Hdec.
  assert (Hloop : exists new' g',
             delta_loop 0 new new g = Ok (new', g') /\
             Forall (fun r => exists e, delta r = Some (PyDecimal (mk false 0 e))) new').
  { clear Hnew Hv. revert g. induction Hdec as [|n new [v Hn] _ IH]; intros g.
    - exists [], g. by split.
    - rewrite delta_loop_cons.
      destruct (abs_delta_same n n v Hn Hn) as [e ->]. simpl.
      edestruct IH as (new' & g' & -> & Hall). simpl.
      eexists _, _. split; [done|]. constructor; [|done]. by exists e. }
  destruct Hloop as (new' & g' & Hloop & Hzero).
  rewrite <- (delta_loop_values new new prev g Hv) in Hloop.
  destruct (poll_cycle_completes _ _ _ _ _ _ _ Hnew Hloop) as (lines & Hc & _).
  by exists new', g', lines.
Qed.

(** Polling data whose spreads are those of the retained list gives a
    cycle that completes with every delta zero. *)
Theorem poll_cycle_unchanged symbols book prev g new :
  get_price_spread_by_symbols symbols book = Ok new ->
  value <$> prev = value <$> new ->
  exists new' g' lines,
    poll_cycle symbols book prev g = Ok (new', g', lines) /\
    Forall (fun r => exists e, delta r = Some (PyDecimal (mk false 0 e))) new'.
Proof.
  exact (poll_cycle_zero_deltas symbols book prev g new).
Qed.

Lemma poll_cycle_unchanged_witness :
  exists new' g' lines,
    poll_cycle ["A"] [book_ticker_record "A" "2.5" "1.0"] [spread "A" "1.5"] no_gauges
    = Ok (new', g', lines) /\
    Forall (fun r => exists e, delta r = Some (PyDecimal (mk false 0 e))) new'.
Proof.
  apply (poll_cycle_unchanged ["A"] [book_ticker_record "A" "2.5" "1.0"]
           [spread "A" "1.5"] no_gauges [spread "A" "1.5"]).
  - vm_compute. reflexivity.
  - vm_compute. reflexivity.
Defined.

(** ** Spread, continued *)

Lemma filterR_KeyError {A} (p : A -> result bool) l x :
  Forall (fun y => (exists b, p y = Ok b) \/ p y = Raise KeyError) l ->
  x ∈ l -> p x = Raise KeyError ->
  filterR p l = Raise KeyError.
Proof.
  intros Hall Hin Hx. induction Hin as [x l|x y l Hin IH]; simpl.
  - by rewrite Hx.
  - apply Forall_cons in Hall as [Hy Hall].
    destruct Hy as [[b ->]| ->]; [|done]. simpl. by rewrite (IH Hall).
Qed.

(** Only the set of requested symbols matters: their order and repetitions
    change nothing, the entries come in the order of the response. *)
Theorem get_price_spread_same_set (symbols symbols' : list string) (book : list dict) :
  (forall s, s ∈ symbols <-> s ∈ symbols') ->
  get_price_spread_by_symbols symbols book = get_price_spread_by_symbols symbols' book.
Proof.
  intros Hset. unfold get_price_spread_by_symbols.
  rewrite (filterR_ext _ (fun x => s ← getitem x "symbol"; Ok (contains symbols' s))); [done|].
  intros x _. destruct (getitem x "symbol") as [s|]; simpl; [|done].
  f_equal. unfold contains. by apply bool_decide_ext.
Qed.

Lemma get_price_spread_same_set_witness :
  get_price_spread_by_symbols ["B"; "A"; "B"]
    [book_ticker_record "A" "2.0" "1.0"; book_ticker_record "B" "4.5" "2.5"]
  = Ok [spread "A" "1.0"; spread "B" "2.0"].
Proof.
  rewrite (get_price_spread_same_set ["B"; "A"; "B"] ["A"; "B"]).
  - vm_compute. reflexivity.
  - intros s. rewrite !elem_of_cons, !elem_of_nil. tauto.
Defined.

(** A record without a symbol makes the call raise KeyError, requested or
    not, and before any price is read. *)
Theorem get_price_spread_KeyError (symbols : list string) (book : list dict) (x : dict) :
  x ∈ book -> x !! "symbol" = None ->
  get_price_spread_by_symbols symbols book = Raise KeyError.
Proof.
  intros Hin Hx. unfold get_price_spread_by_symbols.
  rewrite (filterR_KeyError _ book x); [done| |done|].
  - apply Forall_forall. intros y _. unfold getitem.
    destruct (y !! "symbol"); simpl; eauto.
  - unfold getitem. by rewrite Hx.
Qed.

Lemma get_price_spread_KeyError_witness :
  get_price_spread_by_symbols ["A"]
    [book_ticker_record "A" "2.0" "1.0"; {[ "askPrice" := "1"; "bidPrice" := "1" ]}]
  = Raise KeyError.
Proof.
  apply (get_price_spread_KeyError _ _ {[ "askPrice" := "1"; "bidPrice" := "1" ]}).
  - apply list_elem_of_In. right. left. reflexivity.
  - vm_compute. reflexivity.
Defined.

(** The prices of the records that are not requested are never read:
    responses that agree on every symbol and on the requested records give
    the same result, whatever else the other records hold or lack. *)
Theorem get_price_spread_ignores_others (symbols : list string) (book book' : list dict) :
  Forall2 (fun x x' : dict => x !! "symbol" = x' !! "symbol" /\
                              (requested symbols x = true -> x = x')) book book' ->
  get_price_spread_by_symbols symbols book = get_price_spread_by_symbols symbols book'.
Proof.
  intros H. unfold get_price_spread_by_symbols. f_equal. unfold getitem.
  induction H as [|x x' l l' [Hs Hx] _ IH]; simpl; [done|].
  unfold requested in Hx. rewrite <- Hs.
  destruct (x !! "symbol") as [s|]; simpl; [|done].
  rewrite IH. destruct (filterR _ l') as [ys|]; simpl; [|done].
  destruct (contains symbols s); [|done]. by rewrite Hx.
Qed.

Lemma get_price_spread_ignores_others_witness :
  get_price_spread_by_symbols ["A"]
    [book_ticker_record "A" "2.0" "1.0"; {[ "symbol" := "Q" ]}]
  = Ok [spread "A" "1.0"].
Proof.
  rewrite (get_price_spread_ignores_others ["A"] _
             [book_ticker_record "A" "2.0" "1.0"; book_ticker_record "Q" "1" "1"]).
  - vm_compute. reflexivity.
  - repeat constructor; vm_compute; try reflexivity; discriminate.
Defined.





(** ** Ranking, continued *)

Lemma quoted_is_true q (x : dict) :
  is_true (q0 ← getitem x "quoteAsset"; Ok (bool_decide (q0 = q))) = quoted q x.
Proof.
  unfold quoted, getitem.
  destruct (x !! "quoteAsset") as [q0|]; simpl; [|done].
  destruct (bool_decide (q0 = q)) eqn:Hb; symmetry.
  - apply bool_decide_eq_true in Hb as ->. by apply bool_decide_eq_true.
  - apply bool_decide_eq_false in Hb. apply bool_decide_eq_false. congruence.
Qed.

(** The symbols of a quote asset are the exchange symbols carrying it, in
    the order of the exchange info; an entry without the key
    ["quoteAsset"] makes the call raise KeyError, whatever the others
    hold. *)
Theorem get_symbols_by_quote_asset_spec (ex : list dict) (q : string) :
  (Forall (fun x : dict => is_Some (x !! "quoteAsset")) ex ->
   get_symbols_by_quote_asset ex q = Ok (List.filter (quoted q) ex)) /\
  (forall x, x ∈ ex -> x !! "quoteAsset" = None ->
   get_symbols_by_quote_asset ex q = Raise KeyError).
Proof.
  unfold get_symbols_by_quote_asset. split.
  - intros Hall. rewrite filterR_total.
    + f_equal. apply List.filter_ext. intros x. apply quoted_is_true.
    + eapply Forall_impl; [exact Hall|]. intros x [q0 Hq]. simpl.
      unfold getitem. rewrite Hq. simpl. eauto.
  - intros x Hin Hx. apply (filterR_KeyError _ ex x); [|done|].
    + apply Forall_forall. intros y _. unfold getitem.
      destruct (y !! "quoteAsset"); simpl; eauto.
    + unfold getitem. by rewrite Hx.
Qed.

Lemma get_symbols_by_quote_asset_witness :
  get_symbols_by_quote_asset
    [exchange_symbol "ABTC" "BTC"; exchange_symbol "AUSDT" "USDT";
     exchange_symbol "BBTC" "BTC"] "BTC"
  = Ok [exchange_symbol "ABTC" "BTC"; exchange_symbol "BBTC" "BTC"] /\
  get_symbols_by_quote_asset
    [exchange_symbol "ABTC" "BTC"; {[ "symbol" := "AUSDT" ]}] "BTC"
  = Raise KeyError.
Proof.
  split.
  - destruct (get_symbols_by_quote_asset_spec
                [exchange_symbol "ABTC" "BTC"; exchange_symbol "AUSDT" "USDT";
                 exchange_symbol "BBTC" "BTC"] "BTC") as [H _].
    rewrite H.
    + vm_compute. reflexivity.
    + repeat constructor; eexists; vm_compute; reflexivity.
  - destruct (get_symbols_by_quote_asset_spec
                [exchange_symbol "ABTC" "BTC"; {[ "symbol" := "AUSDT" ]}] "BTC") as [_ H].
    apply (H {[ "symbol" := "AUSDT" ]}).
    + apply list_elem_of_In. right. left. reflexivity.
    + vm_compute. reflexivity.
Defined.

Section SortedForward.
Context {A K : Type} (lt : K -> K -> bool) (key : A -> K).
Hypothesis lt_irrefl : forall a, lt a a = false.
Hypothesis lt_trans : forall a b c, lt a b = true -> lt b c = true -> lt a c = true.
Hypothesis lt_cotrans : forall a b c, lt a c = true -> lt a b = true \/ lt b c = true.

Lemma sorted_forward_take n l :
  let out := take n (sorted lt key false l) in
  length out = Nat.min n (length l) /\
  StronglySorted (ascending lt key) out /\
  (forall k, List.filter (tied lt key k) out `prefix_of` List.filter (tied lt key k) l) /\
  exists rest, out ++ rest ≡ₚ l /\
               forall a b, a ∈ out -> b ∈ rest -> ascending lt key a b.
Proof.
  intros out. subst out.
  pose proof (sorted_forward_ascending lt key lt_irrefl lt_trans lt_cotrans l) as Hs.
  pose proof (sorted_forward_perm lt key l) as Hp.
  rewrite <- (take_drop n (sorted lt key false l)) in Hs.
  repeat split.
  - rewrite length_take. by rewrite (Permutation_length Hp).
  - by apply StronglySorted_app_1_l in Hs.
  - intros k. rewrite <- (sorted_forward_stable lt key lt_cotrans k l).
    rewrite <- (take_drop n (sorted lt key false l)) at 2.
    rewrite List.filter_app. by eexists.
  - exists (drop n (sorted lt key false l)). split.
    + by rewrite take_drop.
    + intros a b Ha Hb. by apply (StronglySorted_app_1_elem_of _ _ _ _ _ Hs).
Qed.
End SortedForward.

(** With [sort_order_reverse=False] the ranking is the bottom of the
    order: ascending by value, equal values in ticker order, cut to [top],
    and what is left out ranks no lower. *)
Theorem get_top_ascending (ex tickers : list dict) (q : string) (top : Z)
    (top_by : string) (cast : string -> result pynum) (out rows : list row) :
  0 <= top ->
  get_top_symbols_by_quote_asset_by ex tickers q top top_by cast false = Ok out ->
  Forall2 (ranked top_by cast) (List.filter (matching (quote_symbols ex q)) tickers) rows ->
  length out = Nat.min (Z.to_nat top) (length rows) /\
  StronglySorted (ascending py_ltb value) out /\
  (forall k, List.filter (fun r => py_numeq k (value r)) out
               `prefix_of` List.filter (fun r => py_numeq k (value r)) rows) /\
  (exists rest, out ++ rest ≡ₚ rows /\
                forall a b, a ∈ out -> b ∈ rest -> ascending py_ltb value a b).
Proof.
  intros Htop Hout Hrows.
  apply get_top_spec in Hout as (_ & _ & _ & rows' & Hrows' & ->).
  rewrite (ranked_functional _ _ _ _ _ Hrows' Hrows).
  unfold slice_to. assert ((top <? 0) = false) as -> by lia.
  destruct (sorted_forward_take py_ltb value py_ltb_irrefl py_ltb_trans py_ltb_cotrans
              (Z.to_nat top) rows) as (Hlen & Hsorted & Hstable & Hrest).
  repeat split; try done.
  intros k. specialize (Hstable k).
  by rewrite !(List.filter_ext _ _ (tied_py_numeq k)) in Hstable.
Qed.

Lemma get_top_ascending_witness :
  exists out,
    get_top_symbols_by_quote_asset_by
      [exchange_symbol "AUSDT" "USDT"; exchange_symbol "BUSDT" "USDT";
       exchange_symbol "CUSDT" "USDT"]
      [ticker "AUSDT" "100"; ticker "BUSDT" "50"; ticker "CUSDT" "75"]
      "USDT" 2 "volume" Decimal_cast false = Ok out /\
    length out = 2%nat /\
    StronglySorted (ascending py_ltb value) out.
Proof.
  exists [mkrow "BUSDT" (D "50") None None; mkrow "CUSDT" (D "75") None None].
  assert (H2 : 0 <= 2) by lia.
  assert (Hout : get_top_symbols_by_quote_asset_by
      [exchange_symbol "AUSDT" "USDT"; exchange_symbol "BUSDT" "USDT";
       exchange_symbol "CUSDT" "USDT"]
      [ticker "AUSDT" "100"; ticker "BUSDT" "50"; ticker "CUSDT" "75"]
      "USDT" 2 "volume" Decimal_cast false
      = Ok [mkrow "BUSDT" (D "50") None None; mkrow "CUSDT" (D "75") None None])
    by (vm_compute; reflexivity).
  split; [exact Hout|].
  destruct (get_top_ascending _ _ _ _ _ _ _
              [mkrow "AUSDT" (D "100") None None; mkrow "BUSDT" (D "50") None None;
               mkrow "CUSDT" (D "75") None None] H2 Hout) as (Hlen & Hs & _).
  - vm_compute List.filter. repeat constructor.
    + exists "100"%string. repeat split; vm_compute; reflexivity.
    + exists "50"%string. repeat split; vm_compute; reflexivity.
    + exists "75"%string. repeat split; vm_compute; reflexivity.
  - split; [exact Hlen | exact Hs].
Defined.

(** A negative [top] does not select from the top: the slice then drops
    the last [-top] entries of the order and keeps all the others. *)
Theorem get_top_negative_top (ex tickers : list dict) (q : string) (top : Z)
    (top_by : string) (cast : string -> result pynum) (rev : bool) (out rows : list row) :
  top < 0 ->
  get_top_symbols_by_quote_asset_by ex tickers q top top_by cast rev = Ok out ->
  Forall2 (ranked top_by cast) (List.filter (matching (quote_symbols ex q)) tickers) rows ->
  out = take (length rows - Z.to_nat (- top)) (sorted py_ltb value rev rows) /\
  length out = (length rows - Z.to_nat (- top))%nat.
Proof.
  intros Htop Hout Hrows.
  apply get_top_spec in Hout as (_ & _ & _ & rows' & Hrows' & ->).
  rewrite (ranked_functional _ _ _ _ _ Hrows' Hrows).
  assert (Hlen : length (sorted py_ltb value rev rows) = length rows).
  { apply Permutation_length. destruct rev.
    - apply sorted_reverse_perm.
    - apply sorted_forward_perm. }
  unfold slice_to. assert ((top <? 0) = true) as -> by lia.
  rewrite Hlen.
  replace (Z.to_nat (Z.of_nat (length rows) + top))
    with (length rows - Z.to_nat (- top))%nat by lia.
  split; [done|]. rewrite length_take, Hlen. lia.
Qed.

Lemma get_top_negative_top_witness :
  get_top_symbols_by_quote_asset_by
    [exchange_symbol "AUSDT" "USDT"; exchange_symbol "BUSDT" "USDT";
     exchange_symbol "CUSDT" "USDT"]
    [ticker "AUSDT" "100"; ticker "BUSDT" "50"; ticker "CUSDT" "75"]
    "USDT" (-1) "volume" Decimal_cast true
  = Ok [mkrow "AUSDT" (D "100") None None; mkrow "CUSDT" (D "75") None None].
Proof.
  assert (Hm : -1 < 0) by lia.
  destruct (get_top_symbols_by_quote_asset_by
    [exchange_symbol "AUSDT" "USDT"; exchange_symbol "BUSDT" "USDT";
     exchange_symbol "CUSDT" "USDT"]
    [ticker "AUSDT" "100"; ticker "BUSDT" "50"; ticker "CUSDT" "75"]
    "USDT" (-1) "volume" Decimal_cast true) as [out|e] eqn:Hout;
    [|vm_compute in Hout; discriminate].
  destruct (get_top_negative_top _ _ _ _ _ _ _ out
              [mkrow "AUSDT" (D "100") None None; mkrow "BUSDT" (D "50") None None;
               mkrow "CUSDT" (D "75") None None] Hm Hout) as [-> _].
  - vm_compute List.filter. repeat constructor.
    + exists "100"%string. repeat split; vm_compute; reflexivity.
    + exists "50"%string. repeat split; vm_compute; reflexivity.
    + exists "75"%string. repeat split; vm_compute; reflexivity.
  - vm_compute. reflexivity.
Defined.

(** The tickers outside the quote asset are skipped before their field is
    read: ticker lists that agree on every symbol and on the matching
    tickers rank the same, whatever the other tickers hold or lack. *)
Theorem get_top_ignores_others (ex tickers tickers' : list dict) (q : string) (top : Z)
    (top_by : string) (cast : string -> result pynum) (rev : bool) :
  Forall2 (fun t t' : dict => t !! "symbol" = t' !! "symbol" /\
                              (matching (quote_symbols ex q) t = true -> t = t'))
    tickers tickers' ->
  get_top_symbols_by_quote_asset_by ex tickers q top top_by cast rev =
  get_top_symbols_by_quote_asset_by ex tickers' q top top_by cast rev.
Proof.
  intros H. unfold get_top_symbols_by_quote_asset_by.
  rewrite <- !(result_bind_assoc (get_symbols_by_quote_asset ex q)
                 (fun syms => mapR (fun x => getitem x "symbol") syms)).
  destruct (get_symbols_by_quote_asset ex q ≫= _) as [names|] eqn:Hn; simpl; [|done].
  apply symbols_names_spec in Hn as (_ & _ & ->).
  f_equal. induction H as [|t t' l l' [Hs Ht] _ IH]; simpl; [done|].
  rewrite IH. f_equal.
  unfold matching in Ht. unfold ticker_entry, getitem. rewrite <- Hs.
  destruct (t !! "symbol") as [s|]; simpl; [|done].
  destruct (contains (quote_symbols ex q) s); simpl; [|done].
  by rewrite <- (Ht eq_refl).
Qed.

Lemma get_top_ignores_others_witness :
  get_top_symbols_by_quote_asset_by
    [exchange_symbol "AUSDT" "USDT"]
    [ticker "AUSDT" "100"; {[ "symbol" := "ABTC" ]}]
    "USDT" 5 "volume" Decimal_cast true
  = Ok [mkrow "AUSDT" (D "100") None None].
Proof.
  rewrite (get_top_ignores_others _ _ [ticker "AUSDT" "100"; ticker "ABTC" "1"]).
  - vm_compute. reflexivity.
  - repeat constructor; vm_compute; try reflexivity; discriminate.
Defined.

(** The top five by volume.  Every ticker of the quote asset gives one
    candidate: its symbol with its field ["volume"] read as a Decimal.  The
    result is the head of the candidates in descending order of volume: at
    most five of them, each a symbol of the quote asset, and no candidate
    left out has a larger volume than one returned. *)
Theorem get_top_symbols_by_volume_in_24h_spec (ex tickers : list dict) (q : string)
    (out : list row) :
  get_top_symbols_by_volume_in_24h ex tickers q = Ok out ->
  exists rows rest,
    Forall2 (fun (t : dict) (r : row) =>
               exists volume d,
                 t !! "symbol" = Some (symbol r) /\ t !! "volume" = Some volume /\
                 Decimal volume = Ok d /\
                 r = mkrow (symbol r) (PyDecimal d) None None)
      (List.filter (matching (quote_symbols ex q)) tickers) rows /\
    out ++ rest ≡ₚ rows /\
    (forall a b, a ∈ out -> b ∈ rest -> descending py_ltb value a b) /\
    length out = Nat.min 5 (length rows) /\
    StronglySorted (descending py_ltb value) out /\
    Forall (fun r => symbol r ∈ quote_symbols ex q) out.
Proof.
  unfold get_top_symbols_by_volume_in_24h. intros Hout.
  apply get_top_spec in Hout as (_ & _ & _ & rows & Hrows & ->).
  change (slice_to 5 ?l) with (take 5 l).
  destruct (sorted_reverse_take py_ltb value py_ltb_irrefl py_ltb_trans py_ltb_cotrans
              5 rows) as (Hlen & Hsorted & _ & (rest & Hperm & Hrest)).
  exists rows, rest. repeat split; try done.
  - eapply Forall2_impl; [exact Hrows|].
    intros t r (f & Hs & Hf & Hc & Hty & Hd).
    unfold Decimal_cast in Hc. destruct (Decimal f) as [d|] eqn:Hdec; [|done].
    injection Hc as Hv. exists f, d. repeat split; try done.
    destruct r; simpl in *. by subst.
  - apply Forall_forall. intros r Hr.
    assert (Hin : r ∈ rows). { rewrite <- Hperm. apply elem_of_app. by left. }
    apply list_elem_of_lookup in Hin as [i Hi].
    destruct (Forall2_lookup_r _ _ _ _ _ Hrows Hi) as (t & Ht & f & Hs & _).
    apply list_elem_of_lookup_2, list_elem_of_In, List.filter_In in Ht as [_ Hm].
    unfold matching in Hm. rewrite Hs in Hm. unfold contains in Hm.
    by apply bool_decide_eq_true in Hm.
Qed.

Lemma get_top_symbols_by_volume_in_24h_witness :
  exists out,
    get_top_symbols_by_volume_in_24h
      [exchange_symbol "AUSDT" "USDT"; exchange_symbol "BUSDT" "USDT"]
      [ticker "AUSDT" "50"; ticker "BUSDT" "100"] "USDT" = Ok out /\
    StronglySorted (descending py_ltb value) out /\
    Forall (fun r => symbol r ∈ ["AUSDT"; "BUSDT"]) out.
Proof.
  eexists. split; [vm_compute; reflexivity|].
  destruct (get_top_symbols_by_volume_in_24h_spec
              [exchange_symbol "AUSDT" "USDT"; exchange_symbol "BUSDT" "USDT"]
              [ticker "AUSDT" "50"; ticker "BUSDT" "100"] "USDT"
              [mkrow "BUSDT" (D "100") None None; mkrow "AUSDT" (D "50") None None])
    as (rows & rest & _ & _ & _ & _ & Hsorted & Hsym).
  - vm_compute. reflexivity.
  - split; [exact Hsorted | exact Hsym].
Defined.

(** ** Notional value, continued *)

(** The aggregator returns two entries per symbol, in the order of the
    symbols, the ["bid"] entry before the ["ask"] entry; the two entries of
    a symbol carry the same value. *)
Theorem get_top_total_notional_value_layout
    (get_order_book : string -> result order_book) (symbols : list string)
    (out : list row) :
  get_top_total_notional_value_by_symbols get_order_book symbols = Ok out ->
  length out = (2 * length symbols)%nat /\
  forall i s, symbols !! i = Some s ->
    exists v, out !! (2 * i)%nat = Some (mkrow s v (Some "bid") None) /\
              out !! (2 * i + 1)%nat = Some (mkrow s v (Some "ask") None).
Proof.
  intros Hout. apply get_top_total_notional_value_spec in Hout as (ll & Hll & ->).
  induction Hll as [|s rows symbols ll (ob & _ & Hrows) _ [IHlen IHi]].
  - split; [done|]. intros i s. by rewrite lookup_nil.
  - apply notional_value_of_spec in Hrows as (A & v & _ & _ & ->).
    split; [simpl in *; lia|].
    intros [|i] s'; simpl.
    + intros [= <-]. by exists v.
    + intros Hs. destruct (IHi i s' Hs) as (v' & Hb & Ha). exists v'.
      replace (i + S (i + 0))%nat with (S (2 * i)) by lia.
      replace (i + S (i + 0) + 1)%nat with (S (2 * i + 1)) by lia.
      by split.
Qed.

Lemma get_top_total_notional_value_layout_witness :
  exists out,
    get_top_total_notional_value_by_symbols
      (fun s => Ok (mkbook [(s, "1")] [])) ["2"; "3"] = Ok out /\
    length out = 4%nat.
Proof.
  eexists. split; [vm_compute; reflexivity|].
  apply (get_top_total_notional_value_layout (fun s => Ok (mkbook [(s, "1")] []))
           ["2"; "3"]).
  vm_compute. reflexivity.
Defined.

(** The bid side of an order book is never read: gateways that give the
    same asks (or the same error) for every requested symbol give the same
    aggregate, whatever their bids. *)
Theorem get_top_total_notional_value_ignores_bids
    (g g' : string -> result order_book) (symbols : list string) :
  (forall s, s ∈ symbols -> asks <$> g s = asks <$> g' s) ->
  get_top_total_notional_value_by_symbols g symbols =
  get_top_total_notional_value_by_symbols g' symbols.
Proof.
  intros H. unfold get_top_total_notional_value_by_symbols. f_equal.
  induction symbols as [|s symbols IH]; simpl; [done|].
  rewrite IH by (intros s' Hs'; apply H; by right). f_equal.
  specialize (H s ltac:(by left)).
  destruct (g s) as [ob|e], (g' s) as [ob'|e']; simpl in *; try done; [|congruence].
  injection H as H. unfold notional_value_of. by rewrite H.
Qed.

Lemma get_top_total_notional_value_ignores_bids_witness :
  get_top_total_notional_value_by_symbols
    (fun _ => Ok (mkbook [("2", "1")] [("1", "1")])) ["S"]
  = get_top_total_notional_value_by_symbols
    (fun _ => Ok (mkbook [("2", "1")] [("7", "7"); ("8", "8")])) ["S"].
Proof.
  apply get_top_total_notional_value_ignores_bids.
  intros s _. reflexivity.
Defined.

(** An order book without asks gives the [int] 0 on both sides, not a
    Decimal, and the notional report prints it with six decimals. *)
Theorem notional_value_of_no_asks (s : string) (ob : order_book) :
  asks ob = [] ->
  notional_value_of s ob
    = Ok [mkrow s (PyInt 0) (Some "bid") None; mkrow s (PyInt 0) (Some "ask") None] /\
  print_formatted_data
    [mkrow s (PyInt 0) (Some "bid") None; mkrow s (PyInt 0) (Some "ask") None] true false
    = Ok [ljust 9 (s +:+ ":") +:+ " bid - 0.000000";
          ljust 9 (s +:+ ":") +:+ " ask - 0.000000"].
Proof.
  intros Hob. split.
  - unfold notional_value_of. rewrite Hob. reflexivity.
  - reflexivity.
Qed.

Lemma notional_value_of_no_asks_witness :
  notional_value_of "S" (mkbook [] [("1", "1")])
    = Ok [mkrow "S" (PyInt 0) (Some "bid") None; mkrow "S" (PyInt 0) (Some "ask") None].
Proof.
  apply (notional_value_of_no_asks "S" (mkbook [] [("1", "1")])). reflexivity.
Defined.

(** ** The report, continued *)

Lemma mapR_first_raise {A B} (f : A -> result B) (e : exn) l x :
  Forall (fun y => (exists z, f y = Ok z) \/ f y = Raise e) l ->
  x ∈ l -> f x = Raise e ->
  mapR f l = Raise e.
Proof.
  intros Hall Hin Hx. induction Hin as [x l|x y l Hin IH]; simpl.
  - by rewrite Hx.
  - apply Forall_cons in Hall as [Hy Hall].
    destruct Hy as [[z ->]| ->]; [|done]. simpl. by rewrite (IH Hall).
Qed.

Lemma py_format_f_raise v e :
  py_format_f v = Raise e ->
  e = OverflowError /\ exists z, v = PyInt z /\ 2 ^ 53 <= Z.abs z.
Proof.
  destruct v as [z|d]; [|done]. cbn [py_format_f].
  destruct (Z_lt_le_dec (Z.abs z) (2 ^ 53)) as [Hlt|Hge].
  - by rewrite float_of_int_exact.
  - intros H. split; [|by exists z].
    destruct (float_of_int z) as [x|e'] eqn:Hf; [done|]. injection H as <-.
    unfold float_of_int in Hf. cbv zeta in Hf.
    repeat case_match; congruence.
Qed.

Lemma format_line_plain_raise notional r e :
  format_line notional false r = Raise e ->
  e = OverflowError /\ exists z, value r = PyInt z /\ 2 ^ 53 <= Z.abs z.
Proof.
  unfold format_line.
  destruct (py_format_f (value r)) as [sv|e'] eqn:Hv; [done|].
  intros [= <-]. by apply py_format_f_raise.
Qed.

Lemma format_line_cases notional r :
  exact_float (value r) ->
  (forall d, delta r = Some d -> exact_float d) ->
  (exists line, format_line notional true r = Ok line) \/
  format_line notional true r = Raise TypeError.
Proof.
  intros Hv Hd. unfold format_line.
  destruct (py_format_f_exact _ Hv) as [sv ->]. cbn [mbind result_bind].
  destruct (delta r) as [d|]; [|by right].
  destruct (py_format_f_exact d (Hd d eq_refl)) as [sd ->]. left. by eexists.
Qed.

(** The ranking and notional reports can only fail on an [int] that is
    too large for a [float]: with Decimals, and with [int]s a double holds
    exactly, they print one line per entry.  With such numbers the
    spread-and-delta report raises TypeError as soon as one entry has no
    delta, and prints one line per entry when all have one. *)
Theorem print_formatted_data_modes (data : list row) (notional : bool) :
  (forall e, print_formatted_data data notional false = Raise e ->
     e = OverflowError /\
     exists r z, r ∈ data /\ value r = PyInt z /\ 2 ^ 53 <= Z.abs z) /\
  (Forall (fun r => exact_float (value r)) data ->
     exists lines, print_formatted_data data notional false = Ok lines /\
                   length lines = length data) /\
  (Forall (fun r => exact_float (value r) /\
                    forall d, delta r = Some d -> exact_float d) data ->
     ((exists r, r ∈ data /\ delta r = None) ->
        print_formatted_data data notional true = Raise TypeError) /\
     (Forall (fun r => is_Some (delta r)) data ->
        exists lines, print_formatted_data data notional true = Ok lines /\
                      length lines = length data)).
Proof.
  split; [|split].
  - unfold print_formatted_data. induction data as [|r data IH]; intros e; [done|].
    cbn [mapR].
    destruct (format_line notional false r) as [line|e'] eqn:Hr; cbn [mbind result_bind].
    + destruct (mapR _ data) as [lines|e'] eqn:Hl; cbn [mbind result_bind]; [done|].
      intros [= <-]. destruct (IH e' eq_refl) as (-> & r' & z & Hin & Hz).
      split; [done|]. exists r', z. split; [by right|done].
    + intros [= <-]. apply format_line_plain_raise in Hr as (-> & z & Hz).
      split; [done|]. exists r, z. split; [by left|done].
  - unfold print_formatted_data. induction 1 as [|r data Hv _ (lines & Hl & Hlen)].
    + by exists [].
    + cbn [mapR]. rewrite Hl. unfold format_line.
      destruct (py_format_f_exact _ Hv) as [sv ->]. cbn [mbind result_bind].
      eexists. split; [done|]. simpl. by rewrite Hlen.
  - intros Hall. split.
    + intros (r & Hin & Hd). unfold print_formatted_data.
      apply (mapR_first_raise _ TypeError data r); [|done|].
      * eapply Forall_impl; [exact Hall|]. intros y [Hv Hy].
        by apply format_line_cases.
      * rewrite Forall_forall in Hall. destruct (Hall r Hin) as [Hv _].
        unfold format_line. destruct (py_format_f_exact _ Hv) as [sv ->].
        cbn [mbind result_bind]. by rewrite Hd.
    + intros Hsome. apply print_with_delta.
      rewrite Forall_forall in Hall, Hsome. apply Forall_forall. intros r Hin.
      destruct (Hall r Hin) as [Hv Hd], (Hsome r Hin) as [d Hdr].
      split; [done|]. exists d. split; [done|by apply Hd].
Qed.

Lemma print_formatted_data_modes_witness :
  print_formatted_data [spread "A" "1.5"] false true = Raise TypeError /\
  print_formatted_data [mkrow "A" (PyInt (10 ^ 400)) None None] false false
    = Raise OverflowError.
Proof.
  split; [|vm_compute; reflexivity].
  destruct (print_formatted_data_modes [spread "A" "1.5"] false) as (_ & _ & H).
  destruct H as [H _].
  - repeat constructor. intros d Hd. discriminate Hd.
  - apply H. exists (spread "A" "1.5"). split; [by left | reflexivity].
Defined.

(** *** Printing and reading back *)

Lemma digit_val_of_N m : (m < 10)%N -> digit_val (ascii_of_N (48 + m)) = m.
Proof.
  intros Hm. unfold digit_val. rewrite N_ascii_embedding by lia. lia.
Qed.

Lemma digits_aux_S fuel n acc :
  digits_aux (S fuel) n acc =
    if (n <? 10)%N then ascii_of_N (48 + n mod 10) :: acc
    else digits_aux fuel (n / 10)%N (ascii_of_N (48 + n mod 10) :: acc).
Proof. done. Qed.

Lemma digits_aux_value fuel n acc a0 :
  (n < 2 ^ N.of_nat fuel)%N ->
  exists k,
    fold_left (fun a c => (a * 10 + digit_val c)%N) (digits_aux (S fuel) n acc) a0
    = fold_left (fun a c => (a * 10 + digit_val c)%N) acc (a0 * 10 ^ k + n)%N.
Proof.
  revert n acc a0. induction fuel as [|fuel IH]; intros n acc a0 Hn.
  - simpl in Hn. assert (n = 0%N) as -> by lia.
    exists 1%N. simpl. f_equal.
  - rewrite (digits_aux_S (S fuel)).
    assert (Hmod : (n mod 10 < 10)%N) by by apply N.mod_lt.
    pose proof (N.div_mod n 10 ltac:(done)) as Hdm.
    destruct (n <? 10)%N eqn:Hlt.
    + apply N.ltb_lt in Hlt. exists 1%N. cbn [fold_left].
      rewrite digit_val_of_N by done. rewrite N.mod_small by done.
      f_equal; lia.
    + apply N.ltb_ge in Hlt.
      assert (Hdiv : (n / 10 < 2 ^ N.of_nat fuel)%N).
      { apply N.Div0.div_lt_upper_bound.
        replace (N.of_nat (S fuel)) with (N.succ (N.of_nat fuel)) in Hn by lia.
        rewrite N.pow_succ_r' in Hn. lia. }
      destruct (IH (n / 10)%N (ascii_of_N (48 + n mod 10) :: acc) a0 Hdiv) as [k Hk].
      exists (k + 1)%N.
      rewrite Hk. cbn [fold_left]. rewrite digit_val_of_N by done.
      f_equal. rewrite N.pow_add_r, N.pow_1_r.
      generalize dependent (n mod 10)%N. generalize dependent (n / 10)%N. intros. lia.
Qed.

(** [int(str(n)) = n]. *)
Lemma int_of_digits_of_N n : int_of_digits (digits_of_N n) = n.
Proof.
  unfold int_of_digits, digits_of_N.
  destruct (digits_aux_value (N.to_nat (N.size n)) n [] 0) as [k Hk].
  - rewrite N2Nat.id. apply N.size_gt.
  - rewrite Hk. simpl. lia.
Qed.

Lemma is_digit_range c : is_digit c = true -> (48 <= N_of_ascii c <= 57)%N.
Proof.
  unfold is_digit. intros H. apply andb_true_iff in H as [H1 H2].
  apply N.leb_le in H1, H2. lia.
Qed.

Lemma numeric_char_plain c :
  numeric_char c -> is_space c = false /\ is_underscore c = false.
Proof.
  intros [H|[->| ->]]; [|done..].
  apply is_digit_range in H. unfold is_space, is_underscore.
  split.
  - apply orb_false_iff. split; apply andb_false_iff.
    + right. apply N.leb_gt. lia.
    + right. apply N.leb_gt. lia.
  - apply N.eqb_neq. lia.
Qed.

Lemma lstrip_plain l :
  match l with [] => True | c :: _ => is_space c = false end -> lstrip l = l.
Proof. destruct l as [|c l]; simpl; [done|]. by intros ->. Qed.

Lemma strip_plain l : Forall numeric_char l -> strip l = l.
Proof.
  intros Hall. unfold strip.
  assert (Hhead : forall l', Forall numeric_char l' ->
            match l' with [] => True | c :: _ => is_space c = false end).
  { intros [|c l'] H; [done|]. apply Forall_cons in H as [H _].
    by apply numeric_char_plain in H as [? _]. }
  rewrite (lstrip_plain l) by by apply Hhead.
  rewrite lstrip_plain; [apply rev_involutive|].
  apply Hhead. apply Forall_forall. intros c Hc.
  rewrite Forall_forall in Hall. apply Hall.
  by apply list_elem_of_In, in_rev, list_elem_of_In in Hc.
Qed.

Lemma filter_underscore_plain l :
  Forall numeric_char l -> List.filter (fun c => negb (is_underscore c)) l = l.
Proof.
  induction 1 as [|c l Hc _ IH]; simpl; [done|].
  apply numeric_char_plain in Hc as [_ ->]. simpl. by rewrite IH.
Qed.

Lemma span_digits_app ip rest :
  Forall (fun c => is_digit c = true) ip ->
  match rest with [] => True | c :: _ => is_digit c = false end ->
  span_digits (ip ++ rest) = (ip, rest).
Proof.
  intros Hip Hrest. induction Hip as [|c ip Hc _ IH]; simpl.
  - destruct rest as [|c rest]; [done|]. simpl. by rewrite Hrest.
  - by rewrite Hc, IH.
Qed.

(** Reading a printed number: sign, digits, point, digits. *)
Lemma Decimal_of_parts (sg : bool) (ip fp : list ascii) :
  ip <> [] ->
  Forall (fun c => is_digit c = true) ip ->
  Forall (fun c => is_digit c = true) fp ->
  Decimal (string_of_list_ascii ((if sg then ["-"%char] else []) ++ ip ++ point fp))
  = Ok (mk sg (int_of_digits (ip ++ fp)) (- Z.of_nat (length fp))).
Proof.
  intros Hne Hip Hfp. unfold Decimal.
  assert (Hall : Forall numeric_char ((if sg then ["-"%char] else []) ++ ip ++ point fp)).
  { apply Forall_app. split; [destruct sg; repeat constructor; right; by left|].
    apply Forall_app. split.
    - eapply Forall_impl; [exact Hip|]. intros c Hc. by left.
    - unfold point. destruct fp as [|c fp]; [constructor|].
      constructor; [right; by right|].
      eapply Forall_impl; [exact Hfp|]. intros c' Hc'. by left. }
  rewrite list_ascii_of_string_of_list_ascii, strip_plain, filter_underscore_plain by done.
  assert (Hsign : split_sign ((if sg then ["-"%char] else []) ++ ip ++ point fp)
                  = (sg, ip ++ point fp)).
  { destruct sg; [done|]. simpl. destruct ip as [|c ip]; [done|].
    apply Forall_cons in Hip as [Hc _]. apply is_digit_range in Hc. simpl.
    assert ((N_of_ascii c =? 45)%N = false) as -> by (apply N.eqb_neq; lia).
    assert ((N_of_ascii c =? 43)%N = false) as -> by (apply N.eqb_neq; lia).
    done. }
  rewrite Hsign.
  rewrite (span_digits_app ip (point fp)) by (by destruct fp).
  assert (Hfrac : match point fp with
                  | c :: r => if (N_of_ascii c =? 46)%N then span_digits r else ([], point fp)
                  | [] => ([], [])
                  end = (fp, [])).
  { unfold point. destruct fp as [|c fp]; [done|].
    change (N_of_ascii "." =? 46)%N with true. cbv iota.
    rewrite <- (app_nil_r (c :: fp)) at 1. by apply span_digits_app. }
  rewrite Hfrac. destruct ip as [|c ip]; [done|].
  cbn [parse_exponent]. repeat f_equal; lia.
Qed.

Lemma int_of_digits_app l1 l2 :
  int_of_digits (l1 ++ l2)
  = fold_left (fun a c => (a * 10 + digit_val c)%N) l2 (int_of_digits l1).
Proof. unfold int_of_digits. apply fold_left_app. Qed.

Lemma fold_zeros k a :
  fold_left (fun a c => (a * 10 + digit_val c)%N) (zeros k) a = (a * pow10 k)%N.
Proof.
  unfold zeros, pow10. rewrite <- Z_nat_N.
  generalize (Z.to_nat k). clear k. intros n. revert a.
  induction n as [|n IH]; intros a.
  - simpl. lia.
  - cbn [replicate fold_left]. rewrite IH.
    change (digit_val "0") with 0%N.
    rewrite Nat2N.inj_succ, N.pow_succ_r'. lia.
Qed.

Lemma int_of_digits_zeros k l : int_of_digits (zeros k ++ l) = int_of_digits l.
Proof.
  rewrite int_of_digits_app. unfold int_of_digits at 1.
  by rewrite fold_zeros.
Qed.

Lemma int_of_digits_cons0 l : int_of_digits ("0"%char :: l) = int_of_digits l.
Proof. done. Qed.

Lemma pow10_nonpos e : e <= 0 -> pow10 e = 1%N.
Proof. intros He. unfold pow10. by replace (Z.to_N e) with 0%N by lia. Qed.

(** The digits printed are those of the number: read as one integer they
    give the coefficient, scaled up when the exponent is positive. *)
Lemma format_parts_value d ip fp :
  format_parts d = (ip, fp) ->
  int_of_digits (ip ++ fp) = (coef d * pow10 (exp d))%N.
Proof.
  unfold format_parts.
  destruct ((coef d =? 0)%N && (0 <? exp d)) eqn:Hz.
  - apply andb_true_iff in Hz as [Hc He]. apply N.eqb_eq in Hc. rewrite Hc.
    cbn [coef exp]. pose proof (digits_of_N_nonempty 0) as Hne.
    pose proof (int_of_digits_of_N 0) as Hv.
    set (ds := digits_of_N 0) in *. clearbody ds.
    assert ((0 + Z.of_nat (length ds) <? 0) = false) as -> by (apply Z.ltb_ge; lia).
    assert ((Z.of_nat (length ds) <? 0 + Z.of_nat (length ds)) = false) as ->
      by (apply Z.ltb_ge; lia).
    replace (Z.to_nat (0 + Z.of_nat (length ds))) with (length ds) by lia.
    rewrite firstn_all, skipn_all. intros [= <- <-].
    destruct ds; [done|]. by rewrite app_nil_r, Hv.
  - pose proof (digits_of_N_nonempty (coef d)) as Hne.
    pose proof (int_of_digits_of_N (coef d)) as Hv.
    set (ds := digits_of_N (coef d)) in *. clearbody ds.
    destruct (exp d + Z.of_nat (length ds) <? 0) eqn:H1;
      [apply Z.ltb_lt in H1 | apply Z.ltb_ge in H1].
    + intros [= <- <-]. cbn [app]. rewrite int_of_digits_cons0, int_of_digits_zeros, Hv.
      rewrite pow10_nonpos by lia. lia.
    + destruct (Z.of_nat (length ds) <? exp d + Z.of_nat (length ds)) eqn:H2;
        [apply Z.ltb_lt in H2 | apply Z.ltb_ge in H2].
      * intros [= <- <-]. rewrite app_nil_r, int_of_digits_app, fold_zeros, Hv.
        do 2 f_equal. lia.
      * rewrite pow10_nonpos by lia. rewrite N.mul_1_r.
        destruct (take (Z.to_nat (exp d + Z.of_nat (length ds))) ds) as [|c i] eqn:Ht.
        -- intros [= <- <-].
           assert (Z.to_nat (exp d + Z.of_nat (length ds)) = 0%nat) as ->.
           { destruct (Z.to_nat (exp d + Z.of_nat (length ds))); [done|].
             by destruct ds. }
           by rewrite drop_0.
        -- intros [= <- <-]. by rewrite <- Ht, take_drop.
Qed.

(** The first digit printed is not a padding zero. *)
Lemma digits_aux_head fuel n acc :
  (n < 2 ^ N.of_nat fuel)%N -> n <> 0%N ->
  exists c rest, digits_aux (S fuel) n acc = c :: rest /\ c <> "0"%char.
Proof.
  revert n acc. induction fuel as [|fuel IH]; intros n acc Hn Hne.
  - simpl in Hn. lia.
  - rewrite (digits_aux_S (S fuel)).
    destruct (n <? 10)%N eqn:Hlt.
    + apply N.ltb_lt in Hlt. eexists _, _. split; [done|].
      rewrite N.mod_small by done. intros Hc.
      apply (f_equal N_of_ascii) in Hc. rewrite N_ascii_embedding in Hc by lia.
      change (N_of_ascii "0") with 48%N in Hc. lia.
    + apply N.ltb_ge in Hlt. apply IH.
      * apply N.Div0.div_lt_upper_bound.
        replace (N.of_nat (S fuel)) with (N.succ (N.of_nat fuel)) in Hn by lia.
        rewrite N.pow_succ_r' in Hn. lia.
      * intros H0. pose proof (N.div_mod n 10 ltac:(done)) as Hdm.
        pose proof (N.mod_lt n 10 ltac:(done)). rewrite H0 in Hdm. lia.
Qed.

Lemma digits_of_N_head n :
  n <> 0%N -> exists c rest, digits_of_N n = c :: rest /\ c <> "0"%char.
Proof.
  intros Hne. unfold digits_of_N. apply digits_aux_head; [|done].
  rewrite N2Nat.id. apply N.size_gt.
Qed.

Lemma format_parts_head d ip fp :
  format_parts d = (ip, fp) ->
  ip = ["0"%char] \/ exists c ip', ip = c :: ip' /\ c <> "0"%char.
Proof.
  unfold format_parts.
  set (d' := if ((coef d =? 0)%N && (0 <? exp d)) then mk (sign d) 0 0 else d).
  assert (Hd' : coef d' = 0%N -> exp d' <= 0).
  { subst d'. destruct (coef d =? 0)%N eqn:Hc, (0 <? exp d) eqn:Hx; simpl; try lia.
    apply N.eqb_neq in Hc. lia. }
  destruct (N.eq_dec (coef d') 0%N) as [H0|Hne].
  - specialize (Hd' H0). rewrite H0. change (digits_of_N 0) with ["0"%char].
    cbn [length]. change (Z.of_nat 1) with 1.
    destruct (exp d' + 1 <? 0) eqn:H1; [intros [= <- <-]; by left|].
    apply Z.ltb_ge in H1.
    assert ((1 <? exp d' + 1) = false) as -> by (apply Z.ltb_ge; lia).
    assert (exp d' = -1 \/ exp d' = 0) as [-> | ->] by lia;
      intros [= <- <-]; by left.
  - destruct (digits_of_N_head _ Hne) as (c & rest & -> & Hc).
    set (len := Z.of_nat (length (c :: rest))).
    destruct (exp d' + len <? 0) eqn:H1; [intros [= <- <-]; by left|].
    destruct (len <? exp d' + len) eqn:H2.
    + intros [= <- <-]. right. by exists c, (rest ++ zeros (exp d' + len - len)).
    + destruct (Z.to_nat (exp d' + len)) as [|k]; simpl.
      * intros [= <- <-]. by left.
      * intros [= <- <-]. right. by eexists _, _.
Qed.

(** C7 (amended): under the plain format a line is the symbol followed by
    [:], left-aligned and padded with spaces to (at least) 9 characters,
    one space, and the value in fixed-point notation with the digits the
    Decimal has: digits, a point and as many decimals as the exponent is
    negative, no exponent part; read as one integer the digits are the
    coefficient (scaled up by a positive exponent), and the first digit is
    a zero only when it is the single digit before the point.
    ["BTCUSDT"] with [Decimal("123.456")] gives ["BTCUSDT:  123.456"]. *)
Theorem C7_plain_line :
  (forall (r : row) (d : decimal),
     value r = PyDecimal d ->
     (exists ip fp,
        format_line false false r =
          Ok (ljust 9 (symbol r +:+ ":") +:+ " " +:+
              string_of_list_ascii ((if sign d then ["-"%char] else []) ++ ip ++ point fp)) /\
        ip <> [] /\
        Forall (fun c => is_digit c = true) ip /\
        Forall (fun c => is_digit c = true) fp /\
        length fp = Z.to_nat (- exp d) /\
        int_of_digits (ip ++ fp) = (coef d * 10 ^ Z.to_N (exp d))%N /\
        (ip = ["0"%char] \/ exists c ip', ip = c :: ip' /\ c <> "0"%char)) /\
     String.length (ljust 9 (symbol r +:+ ":")) = Nat.max 9 (String.length (symbol r) + 1)) /\
  print_formatted_data [mkrow "BTCUSDT" (D "123.456") None None] false false
    = Ok ["BTCUSDT:  123.456"].
Proof.
  split; [|by vm_compute].
  intros r d Hv. split.
  - destruct (format_parts d) as [ip fp] eqn:Hp.
    destruct (format_parts_spec _ _ _ Hp) as (Hne & Hip & Hfp & Hlen).
    exists ip, fp. repeat split; try done.
    + unfold format_line. rewrite Hv. simpl. unfold format_f. by rewrite Hp.
    + apply (format_parts_value _ _ _ Hp).
    + by apply (format_parts_head d ip fp).
  - rewrite ljust_length, length_append. simpl. lia.
Qed.

Lemma C7_witness :
  (exists ip fp,
     format_line false false (mkrow "BTCUSDT" (D "123.456") None None) =
       Ok ("BTCUSDT: " +:+ " " +:+ string_of_list_ascii (ip ++ point fp)) /\
     length fp = 3%nat /\
     int_of_digits (ip ++ fp) = 123456%N) /\
  print_formatted_data [mkrow "BTCUSDT" (D "123.456") None None] false false
    = Ok ["BTCUSDT:  123.456"].
Proof.
  destruct C7_plain_line as [Hgen Hex]. split; [|exact Hex].
  destruct (Hgen (mkrow "BTCUSDT" (D "123.456") None None)
              (mk false 123456 (-3)) eq_refl)
    as [(ip & fp & Hline & _ & _ & _ & Hlen & Hval & _) _].
  exists ip, fp. split; [exact Hline | split; [exact Hlen | exact Hval]].
Defined.

(** C7 as stated fails: the line of ["BTCUSDT"] and [Decimal("123.456")]
    is not ["BTCUSDT: 123.456000"]. *)
Lemma C7_counterexample :
  print_formatted_data [mkrow "BTCUSDT" (D "123.456") None None] false false
  <> Ok ["BTCUSDT: 123.456000"].
Proof. vm_compute. discriminate. Qed.

(** What is printed can be read back: [Decimal(format(d, 'f'))] has the
    sign and the value of [d], and is [d] itself, digit for digit, unless
    the exponent is positive. *)
Theorem Decimal_format_f_roundtrip (d : decimal) :
  exists d',
    Decimal (format_f d) = Ok d' /\
    sign d' = sign d /\
    Dec.numeq d' d = true /\
    (exp d <= 0 -> d' = d).
Proof.
  destruct (format_parts d) as [ip fp] eqn:Hp.
  destruct (format_parts_spec _ _ _ Hp) as (Hne & Hip & Hfp & Hlen).
  pose proof (format_parts_value _ _ _ Hp) as Hv.
  exists (mk (sign d) (coef d * pow10 (exp d)) (- Z.of_nat (length fp))).
  split; [|split; [done|split]].
  - unfold format_f. rewrite Hp. fold (point fp).
    by rewrite Decimal_of_parts, Hv.
  - rewrite Hlen.
    apply (DecFacts.numeq_scaled (Z.min (exp d) 0)); cbn [exp]; [lia..|].
    unfold scaled. cbn [sign coef exp].
    assert ((coef d * pow10 (exp d) *
             pow10 (- Z.of_nat (Z.to_nat (- exp d)) - Z.min (exp d) 0))%N
            = (coef d * pow10 (exp d - Z.min (exp d) 0))%N) as ->; [|done].
    destruct (Z_le_gt_dec (exp d) 0) as [He|He].
    + rewrite (pow10_nonpos (exp d)) by done.
      replace (- Z.of_nat (Z.to_nat (- exp d))) with (exp d) by lia. lia.
    + rewrite (pow10_nonpos (_ - _)) by lia.
      replace (exp d - Z.min (exp d) 0) with (exp d) by lia. lia.
  - intros He. rewrite Hlen, pow10_nonpos by done. destruct d as [s c e].
    cbn [sign coef exp] in *. f_equal; lia.
Qed.

Lemma Decimal_format_f_roundtrip_witness :
  Decimal (format_f (mk true 1050 (-5))) = Ok (mk true 1050 (-5)).
Proof.
  destruct (Decimal_format_f_roundtrip (mk true 1050 (-5))) as (d' & Hd & _ & _ & Heq).
  rewrite Hd. f_equal. apply Heq. simpl. lia.
Defined.

(** ** The file cache *)

(** Unfolding of the cache functions, whatever the section abbreviates. *)
Ltac unfold_cached := unfold cached.
Ltac unfold_get_order_book := unfold get_order_book.
Ltac unfold_get_book_ticker := unfold get_book_ticker.
Ltac unfold_get_price_spread_cached := unfold get_price_spread_cached in *.
Ltac step_notional_value_loop := cbn [notional_value_loop].

Section CachedFacts.
Context {T V : Type}.
Variable float_add : T -> Z -> T.
Variable float_ge : T -> T -> bool.
Variable clock : nat -> T.
Variable environ : gmap string string.
Variable gateway : string -> list (string * string) -> result (response V).
Variable as_order_book : V -> result order_book.

#[local] Abbreviation cached := (cached float_add float_ge clock environ).
#[local] Abbreviation get_order_book := (get_order_book float_add float_ge clock environ gateway).
#[local] Abbreviation get_exchange_info :=
  (get_exchange_info float_add float_ge clock environ gateway).
#[local] Abbreviation get_24h_ticker := (get_24h_ticker float_add float_ge clock environ gateway).
#[local] Abbreviation get_book_ticker := (get_book_ticker float_add float_ge clock environ gateway).
#[local] Abbreviation notional_value_loop :=
  (notional_value_loop float_add float_ge clock environ gateway as_order_book).
#[local] Abbreviation fresh_from := (fresh_from float_add float_ge clock).

(** A file younger than [ttl] is served as it is: the wrapped function is
    not called, whatever it would return, and no file changes. *)
Theorem cached_hit (z : Z) (name : string) (func : result V) (w : world T V) (m : T) (v : V) :
  CACHE environ = true ->
  files w !! cache_file name = Some (m, v) ->
  float_ge (float_add m z) (clock (ticks w)) = true ->
  cached (TtlInt z) name func w = (Ok v, mkworld (files w) (S (ticks w))).
Proof.
  intros Hc Hf Hge. unfold_cached. by rewrite Hf, Hc, Hge.
Qed.

Lemma cached_writes_file (ttl : pyttl) (name : string) (func : result V)
    (w w' : world T V) (v : V) :
  cached ttl name func w = (Ok v, w') ->
  exists m, files w' !! cache_file name = Some (m, v).
Proof.
  unfold_cached; unfold call_and_store.
  destruct (files w !! cache_file name) as [[m c]|] eqn:Hf.
  - destruct (CACHE environ).
    + destruct ttl as [z|s]; [|done].
      destruct (float_ge _ _).
      * intros [= <- <-]. simpl. by exists m.
      * destruct func as [r|]; [|done]. intros [= <- <-]. simpl.
        eexists; apply lookup_insert_eq.
    + destruct func as [r|]; [|done]. intros [= <- <-]. simpl.
      eexists; apply lookup_insert_eq.
  - destruct func as [r|]; [|done]. intros [= <- <-]. simpl.
    eexists; apply lookup_insert_eq.
Qed.

(** After every call that returns, the file of the function holds the
    value returned, and no other file has changed. *)
Theorem cached_stores (ttl : pyttl) (name : string) (func : result V)
    (w w' : world T V) (v : V) :
  cached ttl name func w = (Ok v, w') ->
  (exists m, files w' !! cache_file name = Some (m, v)) /\
  (forall f, f <> cache_file name -> files w' !! f = files w !! f).
Proof.
  intros Hcall. split; [by apply (cached_writes_file ttl name func w)|].
  revert Hcall. unfold_cached; unfold call_and_store.
  destruct (files w !! cache_file name) as [[m c]|] eqn:Hf.
  - destruct (CACHE environ).
    + destruct ttl as [z|s]; [|done].
      destruct (float_ge _ _).
      * by intros [= <- <-].
      * destruct func as [r|]; [|done]. intros [= <- <-] f Hne.
        simpl. by rewrite lookup_insert_ne.
    + destruct func as [r|]; [|done]. intros [= <- <-] f Hne.
      simpl. by rewrite lookup_insert_ne.
  - destruct func as [r|]; [|done]. intros [= <- <-] f Hne.
    simpl. by rewrite lookup_insert_ne.
Qed.

(** A call that raises leaves every file as it was; and a file older than
    [ttl] is never served in place of a failing call. *)
Theorem cached_failure (ttl : pyttl) (name : string) (func : result V) (w : world T V) :
  (forall e w', cached ttl name func w = (Raise e, w') -> files w' = files w) /\
  (forall z m v e,
     ttl = TtlInt z ->
     files w !! cache_file name = Some (m, v) ->
     float_ge (float_add m z) (clock (ticks w)) = false ->
     func = Raise e ->
     (cached ttl name func w).1 = Raise e).
Proof.
  split.
  - intros e w'. unfold_cached; unfold call_and_store.
    destruct (files w !! cache_file name) as [[m c]|].
    + destruct (CACHE environ).
      * destruct ttl as [z|s]; [|by intros [= <- <-]].
        destruct (float_ge _ _); [done|].
        destruct func; [done|]. by intros [= <- <-].
      * destruct func; [done|]. by intros [= <- <-].
    + destruct func; [done|]. by intros [= <- <-].
  - intros z m v e -> Hf Hge ->. unfold_cached; unfold call_and_store.
    rewrite Hf, Hge. by destruct (CACHE environ).
Qed.

(** With [CACHE_TTL] set in the environment the default [ttl] is a string:
    once the file of a function exists, every call of it raises TypeError;
    so a call that returned is followed by calls that raise.
    [get_book_ticker], which passes its own [ttl], is not affected. *)
Theorem cached_env_ttl (s : string) (w : world T V) :
  environ !! "CACHE_TTL" = Some s ->
  CACHE environ = true ->
  (forall sym, is_Some (files w !! cache_file "get_order_book") ->
     (get_order_book sym w).1 = Raise TypeError) /\
  (is_Some (files w !! cache_file "get_exchange_info") ->
     (get_exchange_info w).1 = Raise TypeError) /\
  (is_Some (files w !! cache_file "get_24h_ticker") ->
     (get_24h_ticker w).1 = Raise TypeError) /\
  (forall sym v w1, get_order_book sym w = (Ok v, w1) ->
     forall sym', (get_order_book sym' w1).1 = Raise TypeError) /\
  (forall m v, files w !! cache_file "get_book_ticker" = Some (m, v) ->
     float_ge (float_add m 10) (clock (ticks w)) = true ->
     (get_book_ticker w).1 = Ok v).
Proof.
  intros Henv Hc.
  assert (Httl : CACHE_TTL environ = TtlStr s) by (unfold CACHE_TTL; by rewrite Henv).
  assert (Hraise : forall name func (w0 : world T V),
             is_Some (files w0 !! cache_file name) ->
             (cached (CACHE_TTL environ) name func w0).1 = Raise TypeError).
  { intros name func w0 [[m v] Hf]. unfold_cached. by rewrite Hf, Hc, Httl. }
  split; [|split; [|split; [|split]]].
  - intros sym. apply Hraise.
  - apply Hraise.
  - apply Hraise.
  - intros sym v w1 Hcall sym'. apply Hraise.
    apply cached_writes_file in Hcall as [m Hm]. by eexists.
  - intros m v Hf Hge. unfold_get_book_ticker.
    by rewrite (cached_hit 10 _ _ _ m v).
Qed.

(** The cache file of [get_order_book] is named after the function, not
    the symbol: while it is fresh, the order book of whichever symbol was
    fetched first is returned for every symbol. *)
Theorem get_order_book_ignores_symbol (sym : string) (w w1 : world T V) (v : V) :
  environ !! "CACHE_TTL" = None ->
  CACHE environ = true ->
  get_order_book sym w = (Ok v, w1) ->
  fresh_from 60 "get_order_book" w1 (ticks w1) 1 ->
  forall sym', get_order_book sym' w1 = (Ok v, mkworld (files w1) (S (ticks w1))).
Proof.
  intros Henv Hc Hcall (m & v' & Hf & Hfresh) sym'.
  apply cached_writes_file in Hcall as [m' Hm].
  assert (m' = m /\ v' = v) as [-> ->] by (split; congruence).
  unfold_get_order_book; unfold CACHE_TTL. rewrite Henv.
  apply (cached_hit 60 _ _ _ m v); [done..|]. apply Hfresh. lia.
Qed.

Lemma notional_value_of_any_symbol s s' ob v :
  notional_value_of s ob = Ok [mkrow s v (Some "bid") None; mkrow s v (Some "ask") None] ->
  notional_value_of s' ob = Ok [mkrow s' v (Some "bid") None; mkrow s' v (Some "ask") None].
Proof.
  intros H. apply notional_value_of_spec in H as (A & v' & HA & Hv & [= <-]).
  apply notional_value_of_spec. by exists A, v.
Qed.

Lemma notional_value_loop_fresh symbols (w : world T V) m p ob v s0 :
  environ !! "CACHE_TTL" = None ->
  CACHE environ = true ->
  files w !! cache_file "get_order_book" = Some (m, p) ->
  (forall k, (ticks w <= k < ticks w + length symbols)%nat ->
     float_ge (float_add m 60) (clock k) = true) ->
  as_order_book p = Ok ob ->
  notional_value_of s0 ob
    = Ok [mkrow s0 v (Some "bid") None; mkrow s0 v (Some "ask") None] ->
  (notional_value_loop symbols w).1
  = Ok (concat (map (fun s => [mkrow s v (Some "bid") None; mkrow s v (Some "ask") None])
                  symbols)).
Proof.
  intros Henv Hc Hf Hfresh Hob Hv. revert w Hf Hfresh.
  induction symbols as [|s symbols IH]; intros w Hf Hfresh; [done|].
  step_notional_value_loop.
  assert (Hcall : get_order_book s w = (Ok p, mkworld (files w) (S (ticks w)))).
  { unfold_get_order_book; unfold CACHE_TTL. rewrite Henv.
    apply (cached_hit 60 _ _ _ m p); [done..|]. apply Hfresh. simpl. lia. }
  rewrite Hcall. cbn [mbind result_bind]. rewrite Hob. cbn [mbind result_bind].
  rewrite (notional_value_of_any_symbol s0 s ob v Hv).
  specialize (IH (mkworld (files w) (S (ticks w))) Hf).
  destruct (notional_value_loop symbols _) as [r w2].
  simpl in IH. rewrite IH; [done|]. intros k Hk. apply Hfresh. simpl in Hk |- *. lia.
Qed.

(** Through the cache the aggregator gives every symbol the notional
    value of the first one: once the first order book is stored and while
    it stays fresh, the later symbols are all served that same book. *)
Theorem notional_value_loop_first_book (s : string) (symbols : list string)
    (w w1 : world T V) (p : V) (ob : order_book) (v : pynum) :
  environ !! "CACHE_TTL" = None ->
  CACHE environ = true ->
  get_order_book s w = (Ok p, w1) ->
  as_order_book p = Ok ob ->
  notional_value_of s ob = Ok [mkrow s v (Some "bid") None; mkrow s v (Some "ask") None] ->
  fresh_from 60 "get_order_book" w1 (ticks w1) (length symbols) ->
  (notional_value_loop (s :: symbols) w).1
  = Ok (concat (map (fun s => [mkrow s v (Some "bid") None; mkrow s v (Some "ask") None])
                  (s :: symbols))).
Proof.
  intros Henv Hc Hcall Hob Hv (m & p' & Hf & Hfresh).
  pose proof Hcall as Hstore. apply cached_writes_file in Hstore as [m' Hm].
  assert (m' = m /\ p' = p) as [-> ->] by (split; congruence).
  step_notional_value_loop. rewrite Hcall.
  cbn [mbind result_bind]. rewrite Hob. cbn [mbind result_bind]. rewrite Hv.
  pose proof (notional_value_loop_fresh symbols w1 m p ob v s Henv Hc Hf Hfresh Hob Hv) as Hl.
  destruct (notional_value_loop symbols _) as [r w2].
  simpl in Hl. by rewrite Hl.
Qed.
End CachedFacts.

Lemma cached_hit_witness :
  cached Z.add Z.geb seconds ∅ (TtlInt 60) "f" (Raise KeyError)
    (mkworld {[ "/tmp/f.pickle" := (0, "stored"%string) ]} 5)
  = (Ok "stored"%string, mkworld {[ "/tmp/f.pickle" := (0, "stored"%string) ]} 6).
Proof.
  rewrite (cached_hit Z.add Z.geb seconds ∅ 60 "f" (Raise KeyError)
             (mkworld {[ "/tmp/f.pickle" := (0, "stored"%string) ]} 5) 0 "stored"%string);
    vm_compute; reflexivity.
Defined.

Lemma cached_stores_witness :
  exists m, files (mkworld {[ "/tmp/f.pickle" := (7, "new"%string) ]} 8)
              !! cache_file "f" = Some (m, "new"%string).
Proof.
  destruct (cached_stores Z.add Z.geb seconds ∅ (TtlInt 2) "f" (Ok "new"%string)
              (mkworld {[ "/tmp/f.pickle" := (0, "old"%string) ]} 6)
              (mkworld {[ "/tmp/f.pickle" := (7, "new"%string) ]} 8) "new"%string)
    as [H _]; [vm_compute; reflexivity|exact H].
Defined.

Lemma cached_failure_witness :
  (cached Z.add Z.geb seconds ∅ (TtlInt 2) "f" (Raise KeyError)
     (mkworld {[ "/tmp/f.pickle" := (0, "old"%string) ]} 6)).1 = Raise KeyError.
Proof.
  destruct (cached_failure Z.add Z.geb seconds ∅ (TtlInt 2) "f"
              (Raise KeyError : result string)
              (mkworld {[ "/tmp/f.pickle" := (0, "old"%string) ]} 6)) as [_ H].
  apply (H 2 0 "old"%string); vm_compute; reflexivity.
Defined.

Lemma cached_env_ttl_witness :
  (get_order_book Z.add Z.geb seconds {[ "CACHE_TTL" := "60" ]} depth_gateway "A"
     empty_world).1 = Ok (mkbook [("2", "1")] []) /\
  forall w1,
    (get_order_book Z.add Z.geb seconds {[ "CACHE_TTL" := "60" ]} depth_gateway "A"
       empty_world).2 = w1 ->
    (get_order_book Z.add Z.geb seconds {[ "CACHE_TTL" := "60" ]} depth_gateway "A"
       w1).1 = Raise TypeError.
Proof.
  split; [vm_compute; reflexivity|]. intros w1 Hw1.
  destruct (cached_env_ttl Z.add Z.geb seconds {[ "CACHE_TTL" := "60" ]} depth_gateway
              "60" empty_world) as (_ & _ & _ & H & _);
    [vm_compute; reflexivity..|].
  apply (H "A" (mkbook [("2", "1")] []) w1). rewrite <- Hw1. vm_compute. reflexivity.
Defined.

Lemma get_order_book_ignores_symbol_witness :
  exists w1 w2,
    get_order_book Z.add Z.geb seconds ∅ depth_gateway "A" empty_world
      = (Ok (mkbook [("2", "1")] []), w1) /\
    get_order_book Z.add Z.geb seconds ∅ depth_gateway "B" w1
      = (Ok (mkbook [("2", "1")] []), w2) /\
    safe_request (depth_gateway "depth" [("symbol", "B"); ("limit", "500")])
      = Ok (mkbook [("3", "1")] []).
Proof.
  eexists _, _. split; [vm_compute; reflexivity|]. split; [|vm_compute; reflexivity].
  apply (get_order_book_ignores_symbol Z.add Z.geb seconds ∅ depth_gateway "A" empty_world).
  - vm_compute. reflexivity.
  - vm_compute. reflexivity.
  - vm_compute. reflexivity.
  - eexists _, _. split; [vm_compute; reflexivity|].
    intros k Hk. simpl in Hk. assert (k = 1%nat) as -> by lia. vm_compute. reflexivity.
Defined.

Lemma notional_value_loop_first_book_witness :
  (notional_value_loop Z.add Z.geb seconds ∅ depth_gateway Ok ["A"; "B"; "C"]
     empty_world).1
  = Ok [mkrow "A" (D "2") (Some "bid") None; mkrow "A" (D "2") (Some "ask") None;
        mkrow "B" (D "2") (Some "bid") None; mkrow "B" (D "2") (Some "ask") None;
        mkrow "C" (D "2") (Some "bid") None; mkrow "C" (D "2") (Some "ask") None].
Proof.
  apply (notional_value_loop_first_book Z.add Z.geb seconds ∅ depth_gateway Ok
           "A" ["B"; "C"] empty_world
           (mkworld {[ "/tmp/get_order_book.pickle" := (0, mkbook [("2", "1")] []) ]} 1)
           (mkbook [("2", "1")] []) (mkbook [("2", "1")] []) (D "2")).
  - vm_compute. reflexivity.
  - vm_compute. reflexivity.
  - vm_compute. reflexivity.
  - reflexivity.
  - vm_compute. reflexivity.
  - eexists _, _. split; [vm_compute; reflexivity|].
    intros k Hk. simpl in Hk. unfold seconds. apply Z.geb_le. lia.
Defined.

(** ** The polling loop over the cache *)

(** Where the current and the previous list name the same symbols in the
    same order, pairing by index is pairing by symbol: every delta is taken
    against the previous entry of the entry's own symbol. *)
Theorem delta_loop_same_symbols (cur prev out : list row) (g g' : gauges) :
  symbol <$> cur = symbol <$> prev ->
  delta_loop 0 cur prev g = Ok (out, g') ->
  forall i r, out !! i = Some r ->
    exists c p d,
      cur !! i = Some c /\ prev !! i = Some p /\
      symbol c = symbol r /\ symbol p = symbol r /\ value c = value r /\
      abs_delta c p = Ok d /\ delta r = Some d.
Proof.
  intros Hsym Hloop i r Hr.
  destruct (delta_loop_Ok _ _ _ _ _ Hloop) as [Hlen Hi].
  assert (Hc : is_Some (cur !! i)).
  { apply lookup_lt_is_Some. rewrite <- Hlen. by apply lookup_lt_Some in Hr. }
  destruct Hc as [c Hc].
  destruct (Hi i c Hc) as (p & d & Hp & Hd & Ho).
  assert (r = mkrow (symbol c) (value c) (type c) (Some d)) as -> by congruence.
  exists c, p, d. repeat split; try done. simpl.
  assert (Hs : (symbol <$> cur) !! i = (symbol <$> prev) !! i) by by rewrite Hsym.
  rewrite !list_lookup_fmap, Hc, Hp in Hs. simpl in Hs. congruence.
Qed.

Lemma delta_loop_same_symbols_witness :
  exists c p d,
    [spread "A" "1.5"; spread "B" "2.5"] !! 1%nat = Some c /\
    [spread "A" "1.0"; spread "B" "2.0"] !! 1%nat = Some p /\
    symbol c = "B" /\ symbol p = "B" /\ abs_delta c p = Ok d.
Proof.
  destruct (delta_loop_same_symbols
              [spread "A" "1.5"; spread "B" "2.5"] [spread "A" "1.0"; spread "B" "2.0"]
              [mkrow "A" (D "1.5") None (Some (D "0.5"));
               mkrow "B" (D "2.5") None (Some (D "0.5"))]
              no_gauges
              (mkgauges {[ "A" := D "1.5"; "B" := D "2.5" ]}
                        {[ "A" := D "0.5"; "B" := D "0.5" ]})
              eq_refl) with (i := 1%nat) (r := mkrow "B" (D "2.5") None (Some (D "0.5")))
    as (c & p & d & Hc & Hp & Hsc & Hsp & _ & Hd & _).
  - vm_compute. reflexivity.
  - reflexivity.
  - exists c, p, d. repeat split; assumption.
Defined.

Section PollingFacts.
Context {T V : Type}.
Variable float_add : T -> Z -> T.
Variable float_ge : T -> T -> bool.
Variable clock : nat -> T.
Variable environ : gmap string string.
Variable gateway : string -> list (string * string) -> result (response V).
Variable as_records : V -> result (list dict).

#[local] Abbreviation get_book_ticker := (get_book_ticker float_add float_ge clock environ gateway).
#[local] Abbreviation get_price_spread_cached :=
  (get_price_spread_cached float_add float_ge clock environ gateway as_records).

(** The first poll after the baseline reads the baseline's own data: the
    book ticker fetched for the baseline is in the cache, and while it is
    younger than ten seconds the next fetch returns it again, so the first
    cycle finds every delta zero. *)
Theorem first_poll_reads_baseline (symbols : list string) (w w1 : world T V)
    (base : list row) (g : gauges) :
  CACHE environ = true ->
  get_price_spread_cached symbols w = (Ok base, w1) ->
  fresh_from float_add float_ge clock 10 "get_book_ticker" w1 (ticks w1) 1 ->
  get_price_spread_cached symbols w1 = (Ok base, mkworld (files w1) (S (ticks w1))) /\
  exists out g',
    delta_loop 0 base base g = Ok (out, g') /\
    Forall (fun r => exists e, delta r = Some (PyDecimal (mk false 0 e))) out.
Proof.
  intros Hc Hcall (m & p & Hf & Hfresh).
  unfold_get_price_spread_cached.
  destruct (get_book_ticker w) as [r w0] eqn:Hbt.
  injection Hcall as Hbase <-.
  destruct r as [p0|]; [|done].
  pose proof Hbt as Hst. apply cached_writes_file in Hst as [m0 Hm0].
  assert (m0 = m /\ p0 = p) as [-> ->] by (split; congruence).
  assert (Hhit : get_book_ticker w0 = (Ok p, mkworld (files w0) (S (ticks w0)))).
  { unfold_get_book_ticker.
    apply (cached_hit _ _ _ _ 10 _ _ _ m p); [done..|]. apply Hfresh. lia. }
  rewrite Hhit. split; [by rewrite Hbase|].
  cbn [mbind result_bind] in Hbase.
  destruct (as_records p) as [recs|]; [|done]. cbn [mbind result_bind] in Hbase.
  destruct (poll_cycle_zero_deltas symbols recs base g base Hbase eq_refl)
    as (new' & g' & lines & Hcycle & Hzero).
  unfold poll_cycle in Hcycle. rewrite Hbase in Hcycle. cbn [mbind result_bind] in Hcycle.
  destruct (delta_loop 0 base base g) as [[out g1]|]; [|done].
  cbn [mbind result_bind] in Hcycle.
  destruct (print_formatted_data out false true); [|done].
  injection Hcycle as -> -> _. by exists new', g'.
Qed.
End PollingFacts.

Lemma first_poll_reads_baseline_witness :
  exists w2,
    get_price_spread_cached Z.add Z.geb seconds ∅ book_ticker_gateway Ok ["A"]
      (mkworld {[ "/tmp/get_book_ticker.pickle" :=
                    (0, [book_ticker_record "A" "2.5" "1.0"]) ]} 1)
    = (Ok [spread "A" "1.5"], w2) /\
    exists out g',
      delta_loop 0 [spread "A" "1.5"] [spread "A" "1.5"] no_gauges = Ok (out, g') /\
      Forall (fun r => exists e, delta r = Some (PyDecimal (mk false 0 e))) out.
Proof.
  destruct (first_poll_reads_baseline Z.add Z.geb seconds ∅ book_ticker_gateway Ok ["A"]
              (mkworld ∅ 0)
              (mkworld {[ "/tmp/get_book_ticker.pickle" :=
                            (0, [book_ticker_record "A" "2.5" "1.0"]) ]} 1)
              [spread "A" "1.5"] no_gauges) as [Hsame Hzero].
  - vm_compute. reflexivity.
  - vm_compute. reflexivity.
  - eexists _, _. split; [vm_compute; reflexivity|].
    intros k Hk. simpl in Hk. assert (k = 1%nat) as -> by lia. vm_compute. reflexivity.
  - eexists. split; [exact Hsame | exact Hzero].
Defined.
